(** * recon-pipeline: the nmap and searchsploit tasks of [pipeline/recon/nmap.py]

    A shallow embedding of [ThreadedNmapScan] and [SearchsploitScan]:
    the Python string operations the two tasks rely on, the exceptions
    they can raise, the per-line scanner of [parse_nmap_output], the
    command builder of [run], and the correlation of parsed records with
    the targets of the store. *)

From Stdlib Require Import String Ascii ZArith List Lia Bool.
From stdpp Require Import base gmap sets list strings.

Open Scope string_scope.
Open Scope list_scope.

(** ** Python strings

    A [string] is read as a sequence of code points below 256. *)

Module PyStr.

(** [s.startswith(p)] *)
Fixpoint startswith (p s : string) : bool :=
  match p, s with
  | EmptyString, _ => true
  | String _ _, EmptyString => false
  | String a p', String b s' => if Ascii.eqb a b then startswith p' s' else false
  end.

(** [sub in s] *)
Fixpoint contains (sub s : string) : bool :=
  match s with
  | EmptyString => startswith sub s
  | String _ s' => startswith sub s || contains sub s'
  end.

(** [rev], used by [endswith] and by slicing from the right. *)
Fixpoint rev_onto (acc s : string) : string :=
  match s with
  | EmptyString => acc
  | String c s' => rev_onto (String c acc) s'
  end.

Definition rev (s : string) : string := rev_onto "" s.

(** [s.endswith(p)] *)
Definition endswith (p s : string) : bool := startswith (rev p) (rev s).

(** [s[:-1]]: everything but the last code point; empty on the empty string. *)
Fixpoint drop_last (s : string) : string :=
  match s with
  | EmptyString => ""
  | String c EmptyString => ""
  | String c s' => String c (drop_last s')
  end.

(** One left-to-right pass of [s.replace(old, new)]: [skip] counts the code
    points of a match that are still to be consumed. *)
Fixpoint replace_go (old new : string) (skip : nat) (s : string) : string :=
  match s with
  | EmptyString => ""
  | String c s' =>
      match skip with
      | S k => replace_go old new k s'
      | O =>
          if startswith old s
          then new +:+ replace_go old new (String.length old - 1) s'
          else String c (replace_go old new 0 s')
      end
  end.

(** [new] put before every code point and at the end: what [replace] does
    for the empty pattern. *)
Fixpoint intersperse (new s : string) : string :=
  match s with
  | EmptyString => new
  | String c s' => new +:+ String c (intersperse new s')
  end.

(** [s.replace(old, new)] *)
Definition replace (old new s : string) : string :=
  match old with
  | EmptyString => intersperse new s
  | String _ _ => replace_go old new 0 s
  end.

(** One pass of [s.split(sep)] for a non-empty [sep]: the first field and
    the fields after it. *)
Fixpoint split_go (sep : string) (skip : nat) (s : string) : string * list string :=
  match s with
  | EmptyString => ("", [])
  | String c s' =>
      match skip with
      | S k => split_go sep k s'
      | O =>
          if startswith sep s
          then ("", let '(f, r) := split_go sep (String.length sep - 1) s' in f :: r)
          else let '(f, r) := split_go sep 0 s' in (String c f, r)
      end
  end.

(** [s.split(sep)]; Python raises [ValueError] for an empty separator, the
    source only splits on ["-"]. *)
Definition split (sep s : string) : list string :=
  let '(f, r) := split_go sep 0 s in f :: r.

(** [sep.join(l)] *)
Fixpoint join (sep : string) (l : list string) : string :=
  match l with
  | [] => ""
  | [x] => x
  | x :: l' => x +:+ sep +:+ join sep l'
  end.

(** Line boundaries of [str.splitlines]: LF, VT, FF, CR, FS, GS, RS, NEL. *)
Definition is_linebreak (c : ascii) : bool :=
  match nat_of_ascii c with
  | 10 | 11 | 12 | 13 | 28 | 29 | 30 | 133 => true
  | _ => false
  end.

(** [cur] is the line in progress, if any; [after_cr] says that the previous
    code point was a CR, so that a LF here belongs to the same boundary. *)
Fixpoint splitlines_go (cur : option string) (after_cr : bool) (s : string)
  : list string :=
  match s with
  | EmptyString => match cur with Some l => [l] | None => [] end
  | String c s' =>
      if after_cr && Ascii.eqb c "010" then splitlines_go cur false s'
      else if is_linebreak c
      then default "" cur :: splitlines_go None (Ascii.eqb c "013") s'
      else splitlines_go (Some (default "" cur +:+ String c "")) false s'
  end.

(** [s.splitlines()] *)
Definition splitlines (s : string) : list string := splitlines_go None false s.

(** White space of [str.strip] and of [int]. *)
Definition is_space (c : ascii) : bool :=
  match nat_of_ascii c with
  | 9 | 10 | 11 | 12 | 13 | 28 | 29 | 30 | 31 | 32 | 133 | 160 => true
  | _ => false
  end.

Fixpoint lstrip (s : string) : string :=
  match s with
  | EmptyString => ""
  | String c s' => if is_space c then lstrip s' else s
  end.

(** [s.strip()] *)
Definition strip (s : string) : string := rev (lstrip (rev (lstrip s))).

Definition is_digit (c : ascii) : bool :=
  (48 <=? nat_of_ascii c)%nat && (nat_of_ascii c <=? 57)%nat.

Definition digit_val (c : ascii) : Z := Z.of_nat (nat_of_ascii c - 48).

(** Decimal digits, with single underscores between digits only. *)
Fixpoint digits_go (acc : Z) (prev_digit : bool) (s : string) : option Z :=
  match s with
  | EmptyString => if prev_digit then Some acc else None
  | String c s' =>
      if is_digit c then digits_go (10 * acc + digit_val c)%Z true s'
      else if Ascii.eqb c "_" && prev_digit then digits_go acc false s'
      else None
  end.

(** White space [int] skips around a literal: the ASCII white space, and
    NEL and NBSP, which it turns into spaces first. The separators FS, GS,
    RS and US are white space for [str.strip] but not for [int], which
    refuses a string that holds one. *)
Definition is_int_space (c : ascii) : bool :=
  match nat_of_ascii c with
  | 9 | 10 | 11 | 12 | 13 | 32 | 133 | 160 => true
  | _ => false
  end.

Fixpoint int_lstrip (s : string) : string :=
  match s with
  | EmptyString => ""
  | String c s' => if is_int_space c then int_lstrip s' else s
  end.

Definition int_strip (s : string) : string :=
  rev (int_lstrip (rev (int_lstrip s))).

(** The integer literal [int(s)] accepts: white space around an optional
    sign and decimal digits. *)
Definition parse_int (s : string) : option Z :=
  match int_strip s with
  | String "-" d => Z.opp <$> digits_go 0 false d
  | String "+" d => digits_go 0 false d
  | d => digits_go 0 false d
  end.

End PyStr.

Import PyStr.

(** ** Python values, exceptions and outcomes *)

(** The values a luigi parameter can hold here. *)
Inductive pyval :=
| PyNone
| PyInt (z : Z)
| PyStr (s : string).

Inductive exn :=
| TypeError (msg : string)
| ValueError (msg : string)
| IndexError (msg : string)
| AttributeError (msg : string)
| FileExistsError (path : string)
| FileNotFoundError (path : string)
| SyntaxError (msg : string).

Inductive outcome (A : Type) :=
| Returned (a : A)
| Raised (e : exn).

Arguments Returned {A} a.
Arguments Raised {A} e.

(** [int(v)] *)
Definition py_int (v : pyval) : outcome Z :=
  match v with
  | PyNone => Raised (TypeError "int() argument must be a string, a bytes-like object or a number, not 'NoneType'")
  | PyInt z => Returned z
  | PyStr s =>
      match parse_int s with
      | Some z => Returned z
      | None => Raised (ValueError "invalid literal for int() with base 10")
      end
  end.

(** [l.pop()] *)
Definition pop {A} (l : list A) : outcome (list A) :=
  match l with
  | [] => Raised (IndexError "pop from empty list")
  | _ => Returned (removelast l)
  end.

(** What [ast.literal_eval] can give back: a dict with string keys, or
    anything else. *)
Inductive literal :=
| LitDict (d : gmap string pyval)
| LitOther.

(** [d.get(k)] *)
Definition lit_get (k : string) (l : literal) : outcome pyval :=
  match l with
  | LitDict d => Returned (default PyNone (d !! k))
  | LitOther => Raised (AttributeError "object has no attribute 'get'")
  end.

(** ** The store *)

Record NmapResult := { nr_text : string }.

Record SearchsploitResult :=
  { ssr_type : pyval; ssr_title : pyval; ssr_path : pyval }.

(** Modelled from the spec: [Target] of [pipeline/models], which is not
    part of the sources. A host identity (IPv4 and/or IPv6 address) that
    owns its scan results and exploit matches, both append-only. *)
Record Target :=
  { ipv4_address : option string;
    ipv6_address : option string;
    nmap_results : list NmapResult;
    searchsploit_results : list SearchsploitResult }.

(** Modelled from the spec: [DBManager] of [pipeline/models], which is not
    part of the sources. [session] holds the targets as the task sees and
    mutates them, [committed] what has been flushed, [closed] whether the
    connection was released. *)
Record DBManager :=
  { session : list Target;
    committed : list Target;
    closed : bool }.

Definition has_address (ipaddr : string) (t : Target) : bool :=
  bool_decide (ipv4_address t = Some ipaddr)
  || bool_decide (ipv6_address t = Some ipaddr).

(** Modelled from the spec: [findTargetByAddress], the query
    [filter(or_(ipv4_address == ipaddr, ipv6_address == ipaddr)).first()];
    the position in the session of the first target with that address,
    [None] when the query has no row. *)
Fixpoint query_first (ipaddr : string) (ts : list Target) : option nat :=
  match ts with
  | [] => None
  | t :: ts' => if has_address ipaddr t then Some 0%nat else S <$> query_first ipaddr ts'
  end.

Definition add_nmap_result (nmr : NmapResult) (t : Target) : Target :=
  {| ipv4_address := ipv4_address t;
     ipv6_address := ipv6_address t;
     nmap_results := nmap_results t ++ [nmr];
     searchsploit_results := searchsploit_results t |}.

Definition add_searchsploit_result (ssr : SearchsploitResult) (t : Target) : Target :=
  {| ipv4_address := ipv4_address t;
     ipv6_address := ipv6_address t;
     nmap_results := nmap_results t;
     searchsploit_results := searchsploit_results t ++ [ssr] |}.

(** Modelled from the spec: [appendResult(target, record)], that is
    [tgt.<collection>.append(record); db_mgr.add(tgt)] on the target found
    at position [i] of the session. *)
Definition db_update (i : nat) (f : Target → Target) (db : DBManager) : DBManager :=
  {| session := alter f i (session db);
     committed := committed db;
     closed := closed db |}.

(** Modelled from the spec: [commitAndClose()], the batch is committed as a
    unit and the connection released. *)
Definition db_close (db : DBManager) : DBManager :=
  {| session := session db; committed := session db; closed := true |}.

(** ** The world a task runs in *)

(** A path names a regular file or a directory; a directory lists its
    regular files, name and text, in the order [glob] yields them. *)
Inductive node :=
| File (content : string)
| Dir (entries : list (string * string)).

(** The unpickled output of the upstream task: target -> protocol -> ports,
    both dicts in insertion order. *)
Definition ip_dict := list (string * list (string * gset string)).

Record world :=
  { fs : gmap string node;
    upstream : option ip_dict;
    db_mgr : DBManager;
    dispatched : list (list string);
    log : list string }.

Definition set_fs (f : gmap string node) (w : world) : world :=
  {| fs := f; upstream := upstream w; db_mgr := db_mgr w;
     dispatched := dispatched w; log := log w |}.

Definition set_db_mgr (db : DBManager) (w : world) : world :=
  {| fs := fs w; upstream := upstream w; db_mgr := db;
     dispatched := dispatched w; log := log w |}.

Definition set_dispatched (d : list (list string)) (w : world) : world :=
  {| fs := fs w; upstream := upstream w; db_mgr := db_mgr w;
     dispatched := d; log := log w |}.

Definition set_log (l : list string) (w : world) : world :=
  {| fs := fs w; upstream := upstream w; db_mgr := db_mgr w;
     dispatched := dispatched w; log := l |}.

(** What lies outside the two tasks: the iteration order of a Python set,
    the files the batch of [nmap] processes leaves behind, the standard
    output of [searchsploit] on an artifact, and [ast.literal_eval]. *)
Class Environment :=
  { set_iter : gset string → list string;
    set_iter_perm : ∀ s, set_iter s ≡ₚ elements s;
    nmap_tool : list (list string) → gmap string node → gmap string node;
    searchsploit_stdout : string → string → string;
    literal_eval : string → outcome literal }.

(** ** A state and exception monad over the world *)

Definition M (A : Type) : Type := world → outcome A * world.

Definition ret {A} (a : A) : M A := λ w, (Returned a, w).

Definition raise {A} (e : exn) : M A := λ w, (Raised e, w).

Definition bind {A B} (m : M A) (k : A → M B) : M B :=
  λ w, match m w with
       | (Returned a, w') => k a w'
       | (Raised e, w') => (Raised e, w')
       end.

#[global] Instance M_ret : MRet M := @ret.
#[global] Instance M_bind : MBind M := λ A B k m, bind m k.

Definition lift {A} (o : outcome A) : M A := λ w, (o, w).

Definition get_world : M world := λ w, (Returned w, w).

Definition modify (f : world → world) : M unit := λ w, (Returned (), f w).

(** [try: m except TypeError: h] *)
Definition try_except_TypeError {A} (m : M A) (h : M A) : M A :=
  λ w, match m w with
       | (Raised (TypeError _), w') => h w'
       | r => r
       end.

(** ** Paths *)

(** The name split at its last dot. *)
Fixpoint split_last_dot (name : string) : option (string * string) :=
  match name with
  | EmptyString => None
  | String c s' =>
      match split_last_dot s' with
      | Some (a, b) => Some (String c a, b)
      | None => if Ascii.eqb c "." then Some ("", s') else None
      end
  end.

(** [Path(name).stem]: the name without its last suffix; a leading or a
    trailing dot starts no suffix. *)
Definition stem (name : string) : string :=
  match split_last_dot name with
  | Some (String c a, String d b) => String c a
  | _ => name
  end.

(** [str(Path(dir) / name)] for a resolved [dir] and a relative [name]. *)
Definition path_join (dir name : string) : string := dir +:+ "/" +:+ name.

(** A name matches the pattern [pre*suf]. *)
Definition glob_match (pre suf name : string) : bool :=
  startswith pre name && endswith suf name
  && (String.length pre + String.length suf <=? String.length name)%nat.

(** [Path(dir).glob(pre*suf)]: nothing when [dir] is no directory. *)
Definition glob (dir pre suf : string) : M (list (string * string)) :=
  λ w, match fs w !! dir with
       | Some (Dir es) => (Returned (List.filter (λ e, glob_match pre suf e.1) es), w)
       | _ => (Returned [], w)
       end.

(** [Path(dir).mkdir(parents=True, exist_ok=True)] *)
Definition mkdir_p (dir : string) : M unit :=
  λ w, match fs w !! dir with
       | None => (Returned (), set_fs (<[dir := Dir []]> (fs w)) w)
       | Some (Dir _) => (Returned (), w)
       | Some (File _) => (Raised (FileExistsError dir), w)
       end.

(** ** ThreadedNmapScan *)

(** The parameters the chain of tasks shares, as far as the two tasks read
    them. *)
Record params :=
  { threads : pyval;
    db_location : string;
    results_dir : string }.

(** A task instance: its parameters and the baseline [__init__] records,
    the highest id of the [NmapResult] table. *)
Record ThreadedNmapScan :=
  { nmap_params : params;
    nmap_highest_id : Z }.

(** [self.output().path]: the folder [nmap-results] under [results_dir]. *)
Definition nmap_output_path (p : params) : string :=
  path_join (results_dir p) "nmap-results".

(** [nmap.10.10.10.10-tcp.nmap -> 10.10.10.10] *)
Definition nmap_ipaddr (entry_stem : string) : string :=
  hd "" (split "-" (replace "nmap." "" entry_stem)).

(** The header line [PORT STATE SERVICE VERSION]. *)
Definition is_header (line : string) : bool :=
  contains "PORT" line && contains "STATE" line && contains "SERVICE" line.

(** The epilog line. *)
Definition is_epilog (line : string) : bool :=
  contains "Service detection performed" line.

(** The body of the loop over the lines of one artifact, on the local
    variables [sentry] and [text]. *)
Definition scan_line (st : bool * list string) (line : string)
  : outcome (bool * list string) :=
  let '(sentry, text) := st in
  let text := if sentry then text ++ [line] else text in
  if is_header line then Returned (true, text)
  else if is_epilog line then
    match pop text with
    | Returned text' => Returned (false, text')
    | Raised e => Raised e
    end
  else Returned (sentry, text).

Fixpoint scan_lines (st : bool * list string) (lines : list string)
  : outcome (bool * list string) :=
  match lines with
  | [] => Returned st
  | line :: lines' =>
      match scan_line st line with
      | Returned st' => scan_lines st' lines'
      | Raised e => Raised e
      end
  end.

Definition newline : string := String "010" "".

(** One round of the loop over the artifacts: [sentry] comes from the
    round before, [text] starts empty. *)
Definition parse_entry (sentry : bool) (entry : string * string) : M bool :=
  let ipaddr := nmap_ipaddr (stem entry.1) in
  '(sentry', text) ← lift (scan_lines (sentry, []) (splitlines entry.2));
  let nmr := {| nr_text := join newline text |} in
  w ← get_world;
  match query_first ipaddr (session (db_mgr w)) with
  | None => raise (AttributeError "'NoneType' object has no attribute 'nmap_results'")
  | Some i =>
      modify (λ w, set_db_mgr (db_update i (add_nmap_result nmr) (db_mgr w)) w);;
      ret sentry'
  end.

Fixpoint parse_entries (sentry : bool) (entries : list (string * string)) : M bool :=
  match entries with
  | [] => ret sentry
  | entry :: entries' =>
      sentry' ← parse_entry sentry entry;
      parse_entries sentry' entries'
  end.

(** [ThreadedNmapScan.parse_nmap_output] *)
Definition parse_nmap_output (self : ThreadedNmapScan) : M unit :=
  entries ← glob (nmap_output_path (nmap_params self)) "nmap" ".nmap";
  parse_entries false entries;;
  modify (λ w, set_db_mgr (db_close (db_mgr w)) w).

(** The template of the command; the placeholders at 2 and 10 are
    overwritten for each target and protocol. *)
Definition nmap_command : list string :=
  [ "nmap"; "--open"; "PLACEHOLDER-IDX-2"; "-n"; "-sC"; "-T"; "4"; "-sV";
    "-Pn"; "-p"; "PLACEHOLDER-IDX-10"; "-oA" ].

Section WithEnvironment.

Context `{Environment}.

(** The body of the inner loop of [run]. *)
Definition make_command (out target protocol : string) (ports : gset string)
  : list string :=
  let tmp_cmd := nmap_command in
  let tmp_cmd := <[2%nat := if bool_decide (protocol = "tcp") then "-sT" else "-sU"]> tmp_cmd in
  let tmp_cmd := <[10%nat := join "," (set_iter ports)]> tmp_cmd in
  let tmp_cmd := tmp_cmd ++ [path_join out ("nmap." +:+ target +:+ "-" +:+ protocol)] in
  tmp_cmd ++ [target].

(** The two nested loops of [run] over [ip_dict.items()]. *)
Definition make_commands (out : string) (d : ip_dict) : list (list string) :=
  '(target, protocol_dict) ← d;
  '(protocol, ports) ← protocol_dict;
  [make_command out target protocol ports].

(** [ThreadPoolExecutor(max_workers=n)]: the constructor raises
    [ValueError] unless [n] is above zero. *)
Definition thread_pool (n : Z) : M unit :=
  if (n <=? 0)%Z then raise (ValueError "max_workers must be greater than 0")
  else ret ().

(** [executor.map(subprocess.run, commands)] and the wait for the pool at
    the end of the [with] block: every command is run, whatever a sibling
    does, and nothing a worker raises is looked at. *)
Definition executor_map (commands : list (list string)) : M unit :=
  modify (λ w, set_fs (nmap_tool commands (fs w))
                 (set_dispatched (dispatched w ++ commands) w)).

Definition logging_error (msg : string) : M unit :=
  modify (λ w, set_log (log w ++ [msg]) w).

(** [pickle.load(open(self.input().path, "rb"))] *)
Definition load_input : M ip_dict :=
  w ← get_world;
  match upstream w with
  | Some d => ret d
  | None => raise (FileNotFoundError "input")
  end.

(** The [try] block of [run]; [Some n] is the new value of [self.threads],
    [None] the early [return] of the handler. *)
Definition coerce_threads (self : ThreadedNmapScan) : M (option Z) :=
  try_except_TypeError
    (n ← lift (py_int (threads (nmap_params self))); ret (Some (Z.abs n)))
    (logging_error "The value supplied to --threads must be a non-negative integer.";;
     ret None).

(** [ThreadedNmapScan.run] *)
Definition nmap_run (self : ThreadedNmapScan) : M unit :=
  t ← coerce_threads self;
  match t with
  | None => ret ()
  | Some n =>
      d ← load_input;
      let commands := make_commands (nmap_output_path (nmap_params self)) d in
      mkdir_p (nmap_output_path (nmap_params self));;
      thread_pool n;;
      executor_map commands;;
      parse_nmap_output self
  end.

(** ** SearchsploitScan *)

Record SearchsploitScan :=
  { ss_params : params;
    ss_highest_id : Z }.

(** [SearchsploitScan.requires]: the instance of [ThreadedNmapScan] it
    depends on, with the baseline that instance records for itself. *)
Definition ss_requires (self : SearchsploitScan) (baseline : Z) : ThreadedNmapScan :=
  {| nmap_params := ss_params self; nmap_highest_id := baseline |}.

(** [wall-searchsploit-results/nmap.10.10.10.157-tcp to 10.10.10.157] *)
Definition ss_ipaddr (entry_stem : string) : string :=
  replace "-udp" "" (replace "-tcp" "" (replace "nmap." "" entry_stem)).

(** The dict of a line with a title; a comma at the end of the line would
    make the literal a tuple and is removed. *)
Definition ss_literal (line : string) : outcome literal :=
  if endswith "," line
  then literal_eval (drop_last (strip line))
  else literal_eval (strip line).

(** The body of the loop over the lines of the output of [searchsploit]. *)
Definition ss_line (ipaddr line : string) : M unit :=
  if contains "Title" line then
    tmp_result ← lift (ss_literal line);
    w ← get_world;
    let tgt := query_first ipaddr (session (db_mgr w)) in
    ssr_type ← lift (lit_get "Type" tmp_result);
    ssr_title ← lift (lit_get "Title" tmp_result);
    ssr_path ← lift (lit_get "Path" tmp_result);
    let ssr := {| ssr_type := ssr_type; ssr_title := ssr_title; ssr_path := ssr_path |} in
    match tgt with
    | None => raise (AttributeError "'NoneType' object has no attribute 'searchsploit_results'")
    | Some i =>
        modify (λ w, set_db_mgr (db_update i (add_searchsploit_result ssr) (db_mgr w)) w)
    end
  else ret ().

Fixpoint ss_lines (ipaddr : string) (lines : list string) : M unit :=
  match lines with
  | [] => ret ()
  | line :: lines' => ss_line ipaddr line;; ss_lines ipaddr lines'
  end.

(** One round of the loop over the [nmap*.xml] artifacts. *)
Definition ss_entry (dir : string) (entry : string * string) : M unit :=
  let stdout := searchsploit_stdout (path_join dir entry.1) entry.2 in
  if bool_decide (stdout = "") then ret ()
  else ss_lines (ss_ipaddr (stem entry.1)) (splitlines stdout).

Fixpoint ss_entries (dir : string) (entries : list (string * string)) : M unit :=
  match entries with
  | [] => ret ()
  | entry :: entries' => ss_entry dir entry;; ss_entries dir entries'
  end.

(** [SearchsploitScan.run] *)
Definition ss_run (self : SearchsploitScan) : M unit :=
  let dir := nmap_output_path (ss_params self) in
  entries ← glob dir "nmap" ".xml";
  ss_entries dir entries;;
  modify (λ w, set_db_mgr (db_close (db_mgr w)) w).

End WithEnvironment.

(** ** A concrete environment

    Sets are iterated in the order of [elements]; the scanner leaves the
    files as they are; [searchsploit] echoes the text of the artifact it is
    given; [literal_eval] reads a line that is a dict with the one key
    [Title], and rejects anything else. *)

Definition title_literal (s : string) : outcome literal :=
  if startswith "{'Title': '" s && endswith "'}" s then
    Returned (LitDict {[ "Title" := PyStr (drop_last (drop_last
                (replace "{'Title': '" "" s))) ]})
  else Raised (SyntaxError "invalid syntax").

#[global] Instance sample_environment : Environment :=
  {| set_iter := elements;
     set_iter_perm := λ s, reflexivity (elements s);
     nmap_tool := λ _ f, f;
     searchsploit_stdout := λ _ content, content;
     literal_eval := title_literal |}.

(** A store with the one target [10.10.10.5]. *)
Definition sample_target : Target :=
  {| ipv4_address := Some "10.10.10.5"; ipv6_address := None;
     nmap_results := []; searchsploit_results := [] |}.

Definition sample_db : DBManager :=
  {| session := [sample_target]; committed := [sample_target]; closed := false |}.

Definition sample_params (t : pyval) : params :=
  {| threads := t; db_location := "/tmp/recon.sqlite"; results_dir := "/tmp/recon" |}.

Definition sample_scan (t : pyval) : ThreadedNmapScan :=
  {| nmap_params := sample_params t; nmap_highest_id := 0 |}.

(** A line boundary occurs in [s]. *)
Fixpoint has_linebreak (s : string) : bool :=
  match s with
  | EmptyString => false
  | String c s' => is_linebreak c || has_linebreak s'
  end.

(** The text with the given lines, each ended by a line feed. *)
Definition unlines (lines : list string) : string :=
  foldr (λ l acc, l +:+ newline +:+ acc) "" lines.

(** A world whose [nmap-results] folder holds the given artifacts. *)
Definition sample_world (entries : list (string * string)) : world :=
  {| fs := {[ "/tmp/recon/nmap-results" := Dir entries ]};
     upstream := Some [("10.10.10.5", [("tcp", {[ "22"; "80" ]})])];
     db_mgr := sample_db;
     dispatched := [];
     log := [] |}.

(** The [.nmap] text of a service scan that found two open ports. *)
Definition scan_text : string :=
  unlines [ "Starting Nmap 7.80 ( https://nmap.org )";
            "PORT   STATE SERVICE VERSION";
            "22/tcp open  ssh     OpenSSH 7.9";
            "80/tcp open  http    nginx";
            "Service detection performed. Please report any incorrect results.";
            "Nmap done: 1 IP address (1 host up)" ].

(** An artifact of the target in the store, and one of a host the store
    does not know. *)
Definition known_artifact : string * string := ("nmap.10.10.10.5-tcp.nmap", scan_text).
Definition unknown_artifact : string * string := ("nmap.10.10.10.9-tcp.nmap", scan_text).

(** The same two hosts as [searchsploit] sees them. *)
Definition known_xml : string * string :=
  ("nmap.10.10.10.5-tcp.xml", unlines ["{'Title': 'Nginx 1.14 - Denial of Service'}"]).
Definition unknown_xml : string * string :=
  ("nmap.10.10.10.9-tcp.xml", unlines ["{'Title': 'Nginx 1.14 - Denial of Service'}"]).

Definition sample_searchsploit : SearchsploitScan :=
  {| ss_params := sample_params (PyStr "2"); ss_highest_id := 0 |}.

(** Lines as [parse_nmap_output] tells them apart: an end line takes the
    [elif] branch, a plain line takes no branch. *)
Definition is_end_line (line : string) : bool :=
  negb (is_header line) && is_epilog line.

Definition is_plain_line (line : string) : bool :=
  negb (is_header line) && negb (is_epilog line).

(** The artifact stem [run] gives to the scan of [address] over [protocol]. *)
Definition artifact_stem (address protocol : string) : string :=
  "nmap." +:+ address +:+ "-" +:+ protocol.

(** What a correlation pass leaves alone until it closes the store:
    everything but the targets of the session. *)
Definition session_only (w w' : world) : Prop :=
  fs w' = fs w ∧ upstream w' = upstream w ∧ dispatched w' = dispatched w
  ∧ log w' = log w
  ∧ committed (db_mgr w') = committed (db_mgr w)
  ∧ closed (db_mgr w') = closed (db_mgr w).

(** ** Measures and relations on the store and on the input *)

(** The name of the file with extension [ext] that [nmap -oA] writes for
    the base the run builds from [address] and [protocol]. *)
Definition artifact_name (address protocol ext : string) : string :=
  artifact_stem address protocol +:+ ext.

(** The number of scan results, and of exploit matches, of all targets. *)
Definition nmap_result_count (ts : list Target) : nat :=
  sum_list_with (λ t, length (nmap_results t)) ts.

Definition ss_result_count (ts : list Target) : nat :=
  sum_list_with (λ t, length (searchsploit_results t)) ts.

(** [t'] is [t] with scan results appended and nothing else changed. *)
Definition nmap_extended (t t' : Target) : Prop :=
  ipv4_address t' = ipv4_address t
  ∧ ipv6_address t' = ipv6_address t
  ∧ nmap_results t `prefix_of` nmap_results t'
  ∧ searchsploit_results t' = searchsploit_results t.

(** [t'] is [t] with exploit matches appended and nothing else changed. *)
Definition ss_extended (t t' : Target) : Prop :=
  ipv4_address t' = ipv4_address t
  ∧ ipv6_address t' = ipv6_address t
  ∧ nmap_results t' = nmap_results t
  ∧ searchsploit_results t `prefix_of` searchsploit_results t'.

(** The record [SearchsploitScan.run] builds from the dict of a line: the
    three [get]s, [None] for a missing key. *)
Definition ssr_of_dict (d : gmap string pyval) : SearchsploitResult :=
  {| ssr_type := default PyNone (d !! "Type");
     ssr_title := default PyNone (d !! "Title");
     ssr_path := default PyNone (d !! "Path") |}.

(** The number of lines with a title in what [searchsploit] prints for an
    artifact of the folder [dir]. *)
Definition title_line_count `{Environment} (dir : string) (entry : string * string) : nat :=
  length (List.filter (contains "Title")
            (splitlines (searchsploit_stdout (path_join dir entry.1) entry.2))).

(** The number of target and protocol pairs of the input mapping. *)
Definition pair_count (d : ip_dict) : nat :=
  sum_list_with (λ tp, length tp.2) d.

(** * Properties *)

(** ** Strings *)

#[local] Arguments String.append !s1 s2 : simpl nomatch.

Section StringFacts.

Lemma append_nil_r (s : string) : s +:+ "" = s.
Proof. induction s as [|c s IH]; simpl; [reflexivity | now rewrite IH]. Qed.

Lemma append_assoc (a b c : string) : (a +:+ b) +:+ c = a +:+ (b +:+ c).
Proof. induction a as [|x a IH]; simpl; [reflexivity | now rewrite IH]. Qed.

Lemma contains_dash_cons (c : ascii) (s : string) :
  contains "-" (String c s) = Ascii.eqb "-" c || contains "-" s.
Proof. cbn [contains startswith]. destruct (Ascii.eqb "-" c); reflexivity. Qed.

Lemma contains_dash_nil : contains "-" "" = false.
Proof. reflexivity. Qed.

(** A match of [nmap.] cannot reach into a dash. *)
Lemma startswith_nmap_dash (x t : string) :
  startswith "nmap." (x +:+ String "-" t) = startswith "nmap." x.
Proof.
  destruct x as [|c1 [|c2 [|c3 [|c4 [|c5 x]]]]]; cbn [startswith append];
    repeat match goal with
           | |- context [Ascii.eqb ?a ?b] =>
               let E := fresh "E" in
               destruct (Ascii.eqb a b) eqn:E; try discriminate E
           end; reflexivity.
Qed.

Lemma startswith_length (p s : string) :
  startswith p s = true → (String.length p ≤ String.length s)%nat.
Proof.
  revert s; induction p as [|a p IH]; intros [|b s]; simpl; try lia; try discriminate.
  destruct (Ascii.eqb a b); [|discriminate]. intros Hs. apply IH in Hs. lia.
Qed.

Lemma replace_nmap_dash (t x : string) (k : nat) :
  (k ≤ String.length x)%nat →
  replace_go "nmap." "" k (x +:+ String "-" t)
  = replace_go "nmap." "" k x +:+ String "-" (replace_go "nmap." "" 0 t).
Proof.
  revert k; induction x as [|c x IH]; intros k Hk.
  - assert (k = 0%nat) as -> by (simpl in Hk; lia). reflexivity.
  - destruct k as [|k].
    + cbn [replace_go append].
      change (String c (x +:+ String "-" t)) with (String c x +:+ String "-" t).
      rewrite startswith_nmap_dash.
      destruct (startswith "nmap." (String c x)) eqn:Hs.
      * apply startswith_length in Hs. simpl in Hs.
        change (String.length "nmap." - 1)%nat with 4%nat.
        simpl. apply IH. lia.
      * simpl. f_equal. apply IH. lia.
    + simpl. apply IH. simpl in Hk. lia.
Qed.

(** Deleting a pattern brings no dash in. *)
Lemma replace_go_no_dash (old x : string) (k : nat) :
  contains "-" x = false → contains "-" (replace_go old "" k x) = false.
Proof.
  revert k; induction x as [|c x IH]; intros k Hx; [reflexivity|].
  rewrite contains_dash_cons in Hx. apply orb_false_iff in Hx as [Hc Hx].
  destruct k as [|k]; cbn [replace_go]; [|now apply IH].
  destruct (startswith old (String c x)).
  - simpl. now apply IH.
  - rewrite contains_dash_cons, Hc. simpl. now apply IH.
Qed.

(** A pattern that begins with a dash is looked for past a prefix without
    dashes. *)
Lemma replace_go_dash_pattern (old new a t : string) :
  contains "-" a = false →
  replace_go (String "-" old) new 0 (a +:+ t)
  = a +:+ replace_go (String "-" old) new 0 t.
Proof.
  induction a as [|c a IH]; intros Ha; [reflexivity|].
  rewrite contains_dash_cons in Ha. apply orb_false_iff in Ha as [Hc Ha].
  cbn [append replace_go startswith]. rewrite Hc. f_equal. now apply IH.
Qed.

Lemma replace_go_dash_pattern_id (old new a : string) :
  contains "-" a = false → replace_go (String "-" old) new 0 a = a.
Proof.
  intros Ha. rewrite <- (append_nil_r a) at 1.
  rewrite replace_go_dash_pattern by exact Ha.
  cbn [replace_go]. now rewrite !append_nil_r.
Qed.

(** The first field of a split on dashes is the prefix without dashes. *)
Lemma split_go_dash (a t : string) :
  contains "-" a = false →
  (split_go "-" 0 (a +:+ String "-" t)).1 = a.
Proof.
  induction a as [|c a IH]; intros Ha; [reflexivity|].
  rewrite contains_dash_cons in Ha. apply orb_false_iff in Ha as [Hc Ha].
  cbn [append split_go startswith]. rewrite Hc.
  specialize (IH Ha). destruct (split_go "-" 0 (a +:+ String "-" t)) as [f r].
  simpl in *. now rewrite IH.
Qed.

Lemma split_hd (sep s : string) : hd "" (split sep s) = (split_go sep 0 s).1.
Proof. unfold split. now destruct (split_go sep 0 s). Qed.

(** A line without boundary, ended by a line feed, is one line. *)
Lemma splitlines_go_line (l rest : string) (cur : option string) :
  has_linebreak l = false →
  splitlines_go cur false (l +:+ String "010" rest)
  = (default "" cur +:+ l) :: splitlines_go None false rest.
Proof.
  revert cur; induction l as [|c l IH]; intros cur Hl.
  - cbn [append splitlines_go]. now rewrite append_nil_r.
  - cbn [has_linebreak] in Hl. apply orb_false_iff in Hl as [Hc Hl].
    cbn [append splitlines_go andb]. rewrite Hc, (IH _ Hl).
    cbn [from_option id]. now rewrite append_assoc.
Qed.

(** [splitlines] gives back the lines a text was written from. *)
Lemma splitlines_unlines (lines : list string) :
  Forall (λ l, has_linebreak l = false) lines →
  splitlines (unlines lines) = lines.
Proof.
  unfold splitlines. induction 1 as [|l lines Hl _ IH]; [reflexivity|].
  cbn [unlines foldr]. unfold newline.
  change (l +:+ String "010" "" +:+ foldr (λ l acc, l +:+ String "010" "" +:+ acc) "" lines)
    with (l +:+ String "010" (unlines lines)).
  rewrite (splitlines_go_line _ _ None Hl). now rewrite IH.
Qed.

End StringFacts.

(** ** The two address extractions (C10) *)

Lemma replace_artifact_stem (address protocol : string) :
  replace "nmap." "" (artifact_stem address protocol)
  = replace "nmap." "" address +:+ String "-" (replace "nmap." "" protocol).
Proof.
  unfold artifact_stem, replace.
  change ("nmap." +:+ address +:+ "-" +:+ protocol)
    with ("nmap." +:+ (address +:+ String "-" protocol)).
  change (replace_go "nmap." "" 0 ("nmap." +:+ (address +:+ String "-" protocol)))
    with (if startswith "nmap." ("nmap." +:+ (address +:+ String "-" protocol))
          then replace_go "nmap." "" 4 ("map." +:+ (address +:+ String "-" protocol))
          else String "n" (replace_go "nmap." "" 0 ("map." +:+ (address +:+ String "-" protocol)))).
  simpl. apply replace_nmap_dash. lia.
Qed.

(** C10, as amended: on the stem [nmap.<address>-<protocol>] of a scan over
    tcp or udp whose address holds no dash, the address the service-scan
    parser splits off and the address the exploit-match parser is left with
    after its deletions are the same string, namely the address with any
    [nmap.] inside it deleted. *)
Theorem address_extractions_agree (address protocol : string) :
  contains "-" address = false →
  protocol = "tcp" ∨ protocol = "udp" →
  nmap_ipaddr (artifact_stem address protocol)
  = ss_ipaddr (artifact_stem address protocol)
  ∧ nmap_ipaddr (artifact_stem address protocol) = replace "nmap." "" address.
Proof.
  intros Ha Hp.
  assert (contains "-" (replace "nmap." "" address) = false) as Hr
    by (apply replace_go_no_dash, Ha).
  assert (nmap_ipaddr (artifact_stem address protocol) = replace "nmap." "" address) as Hn.
  { unfold nmap_ipaddr. rewrite split_hd, replace_artifact_stem.
    now apply split_go_dash. }
  split; [|exact Hn]. rewrite Hn.
  unfold ss_ipaddr. rewrite replace_artifact_stem.
  set (a := replace "nmap." "" address) in *.
  unfold replace at 2.
  destruct Hp as [-> | ->].
  - rewrite (replace_go_dash_pattern "tcp" "" a _ Hr).
    change (replace_go "-tcp" "" 0 (String "-" (replace "nmap." "" "tcp"))) with "".
    rewrite append_nil_r. unfold replace.
    now rewrite (replace_go_dash_pattern_id "udp" "" a Hr).
  - rewrite (replace_go_dash_pattern "tcp" "" a _ Hr).
    change (replace_go "-tcp" "" 0 (String "-" (replace "nmap." "" "udp"))) with "-udp".
    unfold replace.
    rewrite (replace_go_dash_pattern "udp" "" a "-udp" Hr).
    change (replace_go "-udp" "" 0 "-udp") with "". now rewrite append_nil_r.
Qed.

Lemma address_extractions_agree_witness :
  nmap_ipaddr (artifact_stem "10.10.10.5" "tcp")
  = ss_ipaddr (artifact_stem "10.10.10.5" "tcp")
  ∧ nmap_ipaddr (artifact_stem "10.10.10.5" "tcp") = replace "nmap." "" "10.10.10.5".
Proof.
  apply (address_extractions_agree "10.10.10.5" "tcp"); [reflexivity | left; reflexivity].
Defined.

(** C10, as stated, fails on a host name with a dash: the split keeps what
    is before the first dash, the deletions keep the whole name. *)
Lemma address_extractions_differ :
  nmap_ipaddr (artifact_stem "my-host" "tcp") = "my"
  ∧ ss_ipaddr (artifact_stem "my-host" "tcp") = "my-host"
  ∧ ¬ (∀ address protocol : string,
         protocol = "tcp" ∨ protocol = "udp" →
         nmap_ipaddr (artifact_stem address protocol)
         = ss_ipaddr (artifact_stem address protocol)).
Proof.
  split; [reflexivity | split; [reflexivity |]].
  intros Hall. specialize (Hall "my-host" "tcp" (or_introl eq_refl)). discriminate Hall.
Qed.

(** ** The scanner of one artifact *)

Section Scanner.

Implicit Types (line : string) (lines text : list string) (sentry : bool).

Lemma scan_lines_app st lines1 lines2 :
  scan_lines st (lines1 ++ lines2)
  = match scan_lines st lines1 with
    | Returned st' => scan_lines st' lines2
    | Raised e => Raised e
    end.
Proof.
  revert st; induction lines1 as [|l lines1 IH]; intros st; simpl; [reflexivity|].
  destruct (scan_line st l); [apply IH | reflexivity].
Qed.

Lemma pop_snoc {A} (l : list A) (x : A) : pop (l ++ [x]) = Returned l.
Proof.
  unfold pop. rewrite removelast_last. now destruct l.
Qed.

(** Outside a body a plain line changes nothing. *)
Lemma scan_line_plain_closed text line :
  is_plain_line line = true → scan_line (false, text) line = Returned (false, text).
Proof.
  unfold is_plain_line, scan_line. intros [Hh He]%andb_true_iff.
  apply negb_true_iff in Hh, He. now rewrite Hh, He.
Qed.

(** The header opens a body and is not part of it. *)
Lemma scan_line_header_closed text line :
  is_header line = true → scan_line (false, text) line = Returned (true, text).
Proof. unfold scan_line. now intros ->. Qed.

(** Inside a body every line that is no end line is captured. *)
Lemma scan_line_body text line :
  is_end_line line = false →
  scan_line (true, text) line = Returned (true, text ++ [line]).
Proof.
  unfold is_end_line, scan_line. intros H.
  destruct (is_header line); [reflexivity|]. simpl in H. now rewrite H.
Qed.

(** The end line closes the body and is taken off again. *)
Lemma scan_line_end text line :
  is_end_line line = true → scan_line (true, text) line = Returned (false, text).
Proof.
  unfold is_end_line, scan_line. intros [Hh He]%andb_true_iff.
  apply negb_true_iff in Hh. rewrite Hh, He. now rewrite pop_snoc.
Qed.

(** Outside a body, with nothing captured, an end line makes [pop] fail. *)
Lemma scan_line_end_closed line :
  is_end_line line = true →
  scan_line (false, []) line = Raised (IndexError "pop from empty list").
Proof.
  unfold is_end_line, scan_line. intros [Hh He]%andb_true_iff.
  apply negb_true_iff in Hh. now rewrite Hh, He.
Qed.

Lemma scan_lines_plain_closed text lines :
  Forall (λ l, is_plain_line l = true) lines →
  scan_lines (false, text) lines = Returned (false, text).
Proof.
  induction 1 as [|l lines Hl _ IH]; cbn [scan_lines]; [reflexivity|].
  now rewrite scan_line_plain_closed.
Qed.

Lemma scan_lines_body text lines :
  Forall (λ l, is_end_line l = false) lines →
  scan_lines (true, text) lines = Returned (true, text ++ lines).
Proof.
  intros H; revert text; induction H as [|l lines Hl _ IH]; intros text;
    cbn [scan_lines].
  - now rewrite app_nil_r.
  - rewrite scan_line_body by exact Hl. rewrite IH, <- app_assoc. reflexivity.
Qed.

(** Entered outside a body, an artifact made of plain lines, a header, a
    body without end line, an end line and plain lines again yields the
    body. *)
Lemma scan_lines_framed leading start body stop trailing :
  Forall (λ l, is_plain_line l = true) leading →
  is_header start = true →
  Forall (λ l, is_end_line l = false) body →
  is_end_line stop = true →
  Forall (λ l, is_plain_line l = true) trailing →
  scan_lines (false, []) (leading ++ start :: body ++ stop :: trailing)
  = Returned (false, body).
Proof.
  intros Hl Hs Hb He Ht.
  rewrite scan_lines_app, scan_lines_plain_closed by exact Hl.
  cbn [scan_lines]. rewrite scan_line_header_closed by exact Hs.
  rewrite scan_lines_app, scan_lines_body by exact Hb.
  cbn [scan_lines app]. rewrite scan_line_end by exact He.
  now apply scan_lines_plain_closed.
Qed.

(** Entered outside a body, an artifact without header raises as soon as
    it has a line with the epilog phrase. *)
Lemma scan_lines_epilog_without_header lines :
  Forall (λ l, is_header l = false) lines →
  Exists (λ l, is_epilog l = true) lines →
  scan_lines (false, []) lines = Raised (IndexError "pop from empty list").
Proof.
  induction 1 as [|l lines Hl Hls IH]; intros Hex; [inversion Hex|].
  cbn [scan_lines].
  destruct (is_epilog l) eqn:He.
  - rewrite scan_line_end_closed; [reflexivity|].
    unfold is_end_line. now rewrite Hl, He.
  - rewrite scan_line_plain_closed.
    + apply IH. inversion Hex; subst; [congruence | assumption].
    + unfold is_plain_line. now rewrite Hl, He.
Qed.

(** Entered outside a body, an artifact with neither marker yields the
    empty body. *)
Lemma scan_lines_no_marker lines :
  Forall (λ l, is_header l = false) lines →
  Forall (λ l, is_epilog l = false) lines →
  scan_lines (false, []) lines = Returned (false, []).
Proof.
  intros Hh He. apply scan_lines_plain_closed.
  apply Forall_forall. intros l Hin.
  rewrite Forall_forall in Hh, He. unfold is_plain_line.
  now rewrite (Hh l Hin), (He l Hin).
Qed.

(** Entered inside a body, the same artifact has all its lines captured. *)
Lemma scan_lines_no_marker_open lines :
  Forall (λ l, is_epilog l = false) lines →
  scan_lines (true, []) lines = Returned (true, lines).
Proof.
  intros He. apply (scan_lines_body []).
  eapply Forall_impl; [exact He|]. cbv beta. intros l Hl.
  unfold is_end_line. rewrite Hl. apply andb_false_r.
Qed.

End Scanner.

(** ** The correlation passes *)

Ltac unfold_M :=
  unfold mbind, M_bind, mret, M_ret, bind, ret, raise, lift, get_world, modify in *.

Lemma session_only_refl w : session_only w w.
Proof. now repeat split. Qed.

Lemma session_only_trans w1 w2 w3 :
  session_only w1 w2 → session_only w2 w3 → session_only w1 w3.
Proof.
  unfold session_only. intros (?&?&?&?&?&?) (?&?&?&?&?&?).
  repeat split; congruence.
Qed.

Lemma session_only_update i f w :
  session_only w (set_db_mgr (db_update i f (db_mgr w)) w).
Proof. now repeat split. Qed.

Create HintDb pass.
#[local] Hint Resolve session_only_refl session_only_update : pass.

Section NmapPass.

Implicit Types (entry : string * string) (entries : list (string * string)).

Lemma parse_entry_returned sentry entry w sentry' text i :
  scan_lines (sentry, []) (splitlines entry.2) = Returned (sentry', text) →
  query_first (nmap_ipaddr (stem entry.1)) (session (db_mgr w)) = Some i →
  parse_entry sentry entry w
  = (Returned sentry',
     set_db_mgr (db_update i (add_nmap_result {| nr_text := join newline text |})
                   (db_mgr w)) w).
Proof. intros Hs Hq. unfold parse_entry. unfold_M. now rewrite Hs, Hq. Qed.

Lemma parse_entry_scan_raised sentry entry w e :
  scan_lines (sentry, []) (splitlines entry.2) = Raised e →
  parse_entry sentry entry w = (Raised e, w).
Proof. intros Hs. unfold parse_entry. unfold_M. now rewrite Hs. Qed.

Lemma parse_entry_no_target sentry entry w st :
  scan_lines (sentry, []) (splitlines entry.2) = Returned st →
  query_first (nmap_ipaddr (stem entry.1)) (session (db_mgr w)) = None →
  parse_entry sentry entry w
  = (Raised (AttributeError "'NoneType' object has no attribute 'nmap_results'"), w).
Proof.
  intros Hs Hq. unfold parse_entry. unfold_M. rewrite Hs. destruct st.
  now rewrite Hq.
Qed.

Lemma parse_entry_session_only sentry entry w :
  session_only w (parse_entry sentry entry w).2.
Proof.
  unfold parse_entry. unfold_M.
  destruct (scan_lines _ _) as [[s t]|e]; [|auto with pass].
  destruct (query_first _ _); simpl; auto with pass.
Qed.

Lemma parse_entries_cons sentry entry entries w :
  parse_entries sentry (entry :: entries) w
  = match parse_entry sentry entry w with
    | (Returned sentry', w') => parse_entries sentry' entries w'
    | (Raised e, w') => (Raised e, w')
    end.
Proof. reflexivity. Qed.

Lemma parse_entries_app sentry entries1 entries2 w :
  parse_entries sentry (entries1 ++ entries2) w
  = match parse_entries sentry entries1 w with
    | (Returned sentry', w') => parse_entries sentry' entries2 w'
    | (Raised e, w') => (Raised e, w')
    end.
Proof.
  revert sentry w; induction entries1 as [|entry entries1 IH]; intros sentry w.
  - reflexivity.
  - cbn [app]. rewrite !parse_entries_cons.
    destruct (parse_entry sentry entry w) as [[s'|e] w']; [apply IH | reflexivity].
Qed.

Lemma parse_entries_session_only sentry entries w :
  session_only w (parse_entries sentry entries w).2.
Proof.
  revert sentry w; induction entries as [|entry entries IH]; intros sentry w.
  - apply session_only_refl.
  - rewrite parse_entries_cons.
    pose proof (parse_entry_session_only sentry entry w) as Hstep.
    destruct (parse_entry sentry entry w) as [[s'|e] w']; simpl in *; [|exact Hstep].
    eapply session_only_trans; [exact Hstep | apply IH].
Qed.

Lemma glob_world dir pre suf w : (glob dir pre suf w).2 = w.
Proof. unfold glob. now destruct (fs w !! dir) as [[|]|]. Qed.

(** The pass, once the artifacts are listed. *)
Lemma parse_nmap_output_unfold self w :
  parse_nmap_output self w
  = match parse_entries false
            (match fs w !! nmap_output_path (nmap_params self) with
             | Some (Dir es) => List.filter (λ e, glob_match "nmap" ".nmap" e.1) es
             | _ => []
             end) w with
    | (Returned _, w') => (Returned (), set_db_mgr (db_close (db_mgr w')) w')
    | (Raised e, w') => (Raised e, w')
    end.
Proof.
  unfold parse_nmap_output, glob. unfold_M.
  destruct (fs w !! nmap_output_path (nmap_params self)) as [[c|es]|];
    now destruct (parse_entries _ _ _) as [[?|?] ?].
Qed.

End NmapPass.

Section SearchsploitPass.

Context `{Environment}.

Implicit Types (entry : string * string) (entries : list (string * string)).

Lemma ss_line_skipped ipaddr line w :
  contains "Title" line = false → ss_line ipaddr line w = (Returned (), w).
Proof. intros Hc. unfold ss_line. now rewrite Hc. Qed.

Lemma ss_line_no_target ipaddr line w d :
  contains "Title" line = true →
  ss_literal line = Returned (LitDict d) →
  query_first ipaddr (session (db_mgr w)) = None →
  ss_line ipaddr line w
  = (Raised (AttributeError "'NoneType' object has no attribute 'searchsploit_results'"), w).
Proof.
  intros Hc Hl Hq. unfold ss_line. rewrite Hc. unfold_M.
  now rewrite Hl, Hq.
Qed.

Lemma ss_line_session_only ipaddr line w :
  session_only w (ss_line ipaddr line w).2.
Proof.
  unfold ss_line. destruct (contains "Title" line); [|apply session_only_refl].
  unfold_M. destruct (ss_literal line) as [[d|]|e]; simpl; auto with pass.
  destruct (query_first _ _); simpl; auto with pass.
Qed.

Lemma ss_lines_cons ipaddr line lines w :
  ss_lines ipaddr (line :: lines) w
  = match ss_line ipaddr line w with
    | (Returned _, w') => ss_lines ipaddr lines w'
    | (Raised e, w') => (Raised e, w')
    end.
Proof. reflexivity. Qed.

Lemma ss_lines_app ipaddr lines1 lines2 w :
  ss_lines ipaddr (lines1 ++ lines2) w
  = match ss_lines ipaddr lines1 w with
    | (Returned _, w') => ss_lines ipaddr lines2 w'
    | (Raised e, w') => (Raised e, w')
    end.
Proof.
  revert w; induction lines1 as [|line lines1 IH]; intros w; [reflexivity|].
  cbn [app]. rewrite !ss_lines_cons.
  destruct (ss_line ipaddr line w) as [[[]|e] w']; [apply IH | reflexivity].
Qed.

Lemma ss_lines_session_only ipaddr lines w :
  session_only w (ss_lines ipaddr lines w).2.
Proof.
  revert w; induction lines as [|line lines IH]; intros w; [apply session_only_refl|].
  rewrite ss_lines_cons.
  pose proof (ss_line_session_only ipaddr line w) as Hstep.
  destruct (ss_line ipaddr line w) as [[[]|e] w']; simpl in *; [|exact Hstep].
  eapply session_only_trans; [exact Hstep | apply IH].
Qed.

Lemma ss_entry_session_only dir entry w :
  session_only w (ss_entry dir entry w).2.
Proof.
  unfold ss_entry. case_bool_decide; [apply session_only_refl|].
  apply ss_lines_session_only.
Qed.

Lemma ss_entries_cons dir entry entries w :
  ss_entries dir (entry :: entries) w
  = match ss_entry dir entry w with
    | (Returned _, w') => ss_entries dir entries w'
    | (Raised e, w') => (Raised e, w')
    end.
Proof. reflexivity. Qed.

Lemma ss_entries_app dir entries1 entries2 w :
  ss_entries dir (entries1 ++ entries2) w
  = match ss_entries dir entries1 w with
    | (Returned _, w') => ss_entries dir entries2 w'
    | (Raised e, w') => (Raised e, w')
    end.
Proof.
  revert w; induction entries1 as [|entry entries1 IH]; intros w; [reflexivity|].
  cbn [app]. rewrite !ss_entries_cons.
  destruct (ss_entry dir entry w) as [[[]|e] w']; [apply IH | reflexivity].
Qed.

Lemma ss_entries_session_only dir entries w :
  session_only w (ss_entries dir entries w).2.
Proof.
  revert w; induction entries as [|entry entries IH]; intros w; [apply session_only_refl|].
  rewrite ss_entries_cons.
  pose proof (ss_entry_session_only dir entry w) as Hstep.
  destruct (ss_entry dir entry w) as [[[]|e] w']; simpl in *; [|exact Hstep].
  eapply session_only_trans; [exact Hstep | apply IH].
Qed.

Lemma ss_run_unfold self w :
  ss_run self w
  = match ss_entries (nmap_output_path (ss_params self))
            (match fs w !! nmap_output_path (ss_params self) with
             | Some (Dir es) => List.filter (λ e, glob_match "nmap" ".xml" e.1) es
             | _ => []
             end) w with
    | (Returned _, w') => (Returned (), set_db_mgr (db_close (db_mgr w')) w')
    | (Raised e, w') => (Raised e, w')
    end.
Proof.
  unfold ss_run, glob. unfold_M.
  destruct (fs w !! nmap_output_path (ss_params self)) as [[c|es]|];
    now destruct (ss_entries _ _ _) as [[?|?] ?].
Qed.

End SearchsploitPass.

(** ** A record without target (C1) *)

Lemma parse_nmap_output_glob self w entries :
  glob (nmap_output_path (nmap_params self)) "nmap" ".nmap" w = (Returned entries, w) →
  parse_nmap_output self w
  = match parse_entries false entries w with
    | (Returned _, w') => (Returned (), set_db_mgr (db_close (db_mgr w')) w')
    | (Raised e, w') => (Raised e, w')
    end.
Proof.
  intros Hg. unfold parse_nmap_output. unfold_M. rewrite Hg.
  now destruct (parse_entries false entries w) as [[?|?] ?].
Qed.

Lemma ss_run_glob `{Environment} self w entries :
  glob (nmap_output_path (ss_params self)) "nmap" ".xml" w = (Returned entries, w) →
  ss_run self w
  = match ss_entries (nmap_output_path (ss_params self)) entries w with
    | (Returned _, w') => (Returned (), set_db_mgr (db_close (db_mgr w')) w')
    | (Raised e, w') => (Raised e, w')
    end.
Proof.
  intros Hg. unfold ss_run. unfold_M. rewrite Hg.
  now destruct (ss_entries _ entries w) as [[?|?] ?].
Qed.

(** C1, as amended: a record whose address matches no target of the store
    is not dropped silently, it makes the pass raise [AttributeError] on the
    missing target. The pass ends there: it leaves the world as the records
    before it made it, whatever records follow, and the store is neither
    committed nor closed. This holds for the artifacts of the service scan
    and for the lines of the exploit lookup. *)
Theorem unmatched_record_aborts_pass `{Environment} :
  (∀ self w pre entry rest sentry w1 st,
     glob (nmap_output_path (nmap_params self)) "nmap" ".nmap" w
     = (Returned (pre ++ entry :: rest), w) →
     parse_entries false pre w = (Returned sentry, w1) →
     scan_lines (sentry, []) (splitlines entry.2) = Returned st →
     query_first (nmap_ipaddr (stem entry.1)) (session (db_mgr w1)) = None →
     parse_nmap_output self w
     = (Raised (AttributeError "'NoneType' object has no attribute 'nmap_results'"), w1)
     ∧ closed (db_mgr w1) = closed (db_mgr w)
     ∧ committed (db_mgr w1) = committed (db_mgr w))
  ∧ (∀ self w pre_e entry rest_e w0 pre line rest w1 d,
       let dir := nmap_output_path (ss_params self) in
       let stdout := searchsploit_stdout (path_join dir entry.1) entry.2 in
       glob dir "nmap" ".xml" w = (Returned (pre_e ++ entry :: rest_e), w) →
       ss_entries dir pre_e w = (Returned (), w0) →
       stdout ≠ "" →
       splitlines stdout = pre ++ line :: rest →
       ss_lines (ss_ipaddr (stem entry.1)) pre w0 = (Returned (), w1) →
       contains "Title" line = true →
       ss_literal line = Returned (LitDict d) →
       query_first (ss_ipaddr (stem entry.1)) (session (db_mgr w1)) = None →
       ss_run self w
       = (Raised (AttributeError "'NoneType' object has no attribute 'searchsploit_results'"), w1)
       ∧ closed (db_mgr w1) = closed (db_mgr w)
       ∧ committed (db_mgr w1) = committed (db_mgr w)).
Proof.
  split.
  - intros self w pre entry rest sentry w1 st Hg Hpre Hscan Hq.
    split.
    + rewrite (parse_nmap_output_glob _ _ _ Hg), parse_entries_app, Hpre.
      rewrite parse_entries_cons.
      now rewrite (parse_entry_no_target _ _ _ _ Hscan Hq).
    + pose proof (parse_entries_session_only false pre w) as Hs.
      rewrite Hpre in Hs. destruct Hs as (_&_&_&_&Hc&Hcl). now split.
  - intros self w pre_e entry rest_e w0 pre line rest w1 d dir stdout
      Hg Hpre_e Hne Hlines Hpre Ht Hl Hq.
    split.
    + rewrite (ss_run_glob _ _ _ Hg). fold dir.
      rewrite ss_entries_app, Hpre_e, ss_entries_cons.
      unfold ss_entry. fold dir. fold stdout.
      rewrite bool_decide_eq_false_2 by exact Hne.
      rewrite Hlines, ss_lines_app, Hpre, ss_lines_cons.
      now rewrite (ss_line_no_target _ _ _ _ Ht Hl Hq).
    + pose proof (ss_entries_session_only dir pre_e w) as Hs0.
      rewrite Hpre_e in Hs0.
      pose proof (ss_lines_session_only (ss_ipaddr (stem entry.1)) pre w0) as Hs1.
      rewrite Hpre in Hs1.
      destruct (session_only_trans _ _ _ Hs0 Hs1) as (_&_&_&_&Hc&Hcl). now split.
Qed.

Lemma unmatched_record_aborts_pass_witness :
  (let w := sample_world [known_artifact; unknown_artifact; known_artifact] in
   let w1 := (parse_entries false [known_artifact] w).2 in
   parse_nmap_output (sample_scan (PyStr "2")) w
   = (Raised (AttributeError "'NoneType' object has no attribute 'nmap_results'"), w1)
   ∧ closed (db_mgr w1) = closed (db_mgr w)
   ∧ committed (db_mgr w1) = committed (db_mgr w))
  ∧ (let w := sample_world [known_xml; unknown_xml; known_xml] in
     let w1 := (ss_entries "/tmp/recon/nmap-results" [known_xml] w).2 in
     ss_run sample_searchsploit w
     = (Raised (AttributeError "'NoneType' object has no attribute 'searchsploit_results'"), w1)
     ∧ closed (db_mgr w1) = closed (db_mgr w)
     ∧ committed (db_mgr w1) = committed (db_mgr w)).
Proof.
  split.
  - intros w w1.
    apply (proj1 (@unmatched_record_aborts_pass sample_environment)
             (sample_scan (PyStr "2")) w [known_artifact] unknown_artifact
             [known_artifact] false w1
             (false, ["22/tcp open  ssh     OpenSSH 7.9"; "80/tcp open  http    nginx"]));
      vm_compute; reflexivity.
  - intros w w1.
    apply (proj2 (@unmatched_record_aborts_pass sample_environment)
             sample_searchsploit w [known_xml] unknown_xml [known_xml] w1 []
             "{'Title': 'Nginx 1.14 - Denial of Service'}" [] w1
             {[ "Title" := PyStr "Nginx 1.14 - Denial of Service" ]});
      try (vm_compute; reflexivity).
    vm_compute. discriminate.
Defined.

(** C1, as stated, fails: the artifact of a host the store does not know
    comes first, the artifact of the known host second. The pass raises at
    the first one, logs nothing, and the record of the known host is never
    appended. *)
Lemma unmatched_record_stops_batch :
  let w := sample_world [unknown_artifact; known_artifact] in
  let r := parse_nmap_output (sample_scan (PyStr "2")) w in
  r.1 = Raised (AttributeError "'NoneType' object has no attribute 'nmap_results'")
  ∧ log r.2 = []
  ∧ session (db_mgr r.2) = [sample_target]
  ∧ nmap_results sample_target = []
  ∧ (parse_nmap_output (sample_scan (PyStr "2")) (sample_world [known_artifact])).1
    = Returned ().
Proof. vm_compute. repeat split. Qed.

(** ** Release of the store (C7) *)

(** C7, as amended: closing the store is the last step of a correlation
    pass, so the store is closed when the pass returns, and is left as it
    was, committed rows and connection alike, when parsing or correlating
    raises. This holds for the service-scan pass and for the exploit-lookup
    pass. *)
Theorem store_closed_when_pass_returns `{Environment} :
  (∀ self w,
     match parse_nmap_output self w with
     | (Returned _, w') => closed (db_mgr w') = true
     | (Raised _, w') =>
         closed (db_mgr w') = closed (db_mgr w)
         ∧ committed (db_mgr w') = committed (db_mgr w)
     end)
  ∧ (∀ self w,
       match ss_run self w with
       | (Returned _, w') => closed (db_mgr w') = true
       | (Raised _, w') =>
           closed (db_mgr w') = closed (db_mgr w)
           ∧ committed (db_mgr w') = committed (db_mgr w)
       end).
Proof.
  split; intros self w.
  - rewrite parse_nmap_output_unfold.
    match goal with |- context [parse_entries false ?es w] =>
      pose proof (parse_entries_session_only false es w) as Hs;
      destruct (parse_entries false es w) as [[s|e] w']
    end; [reflexivity|].
    destruct Hs as (_&_&_&_&Hc&Hcl). now split.
  - rewrite ss_run_unfold.
    match goal with |- context [ss_entries ?dir ?es w] =>
      pose proof (ss_entries_session_only dir es w) as Hs;
      destruct (ss_entries dir es w) as [[s|e] w']
    end; [reflexivity|].
    destruct Hs as (_&_&_&_&Hc&Hcl). now split.
Qed.

(** C7, as stated, fails: the store is open when the pass starts, the one
    artifact belongs to a host the store does not know, and the pass is
    left through [AttributeError] with the store still open. *)
Lemma store_left_open_on_exception :
  let w := sample_world [unknown_artifact] in
  let r := parse_nmap_output (sample_scan (PyStr "2")) w in
  closed (db_mgr w) = false
  ∧ r.1 = Raised (AttributeError "'NoneType' object has no attribute 'nmap_results'")
  ∧ closed (db_mgr r.2) = false.
Proof. vm_compute. repeat split. Qed.

(** ** The baseline id (C8) *)

(** C8: the baseline [__init__] records has no part in what the instance
    does afterwards. Two instances that differ in the baseline alone run
    the same correlation pass and the same [run], with the same outcome and
    the same world, hence the same records in the session and the same
    committed rows; this holds for the exploit lookup as well. *)
Theorem baseline_id_not_used `{Environment} (p : params) (h1 h2 : Z) (w : world) :
  parse_nmap_output {| nmap_params := p; nmap_highest_id := h1 |} w
  = parse_nmap_output {| nmap_params := p; nmap_highest_id := h2 |} w
  ∧ nmap_run {| nmap_params := p; nmap_highest_id := h1 |} w
    = nmap_run {| nmap_params := p; nmap_highest_id := h2 |} w
  ∧ ss_run {| ss_params := p; ss_highest_id := h1 |} w
    = ss_run {| ss_params := p; ss_highest_id := h2 |} w.
Proof. repeat split. Qed.

(** ** The body between the markers (C5) *)

(** C5, as amended: the scanner is entered outside a body, as it is for the
    first artifact of a pass; the leading and the trailing lines hold
    neither marker phrase; the start marker line holds the three header
    words; no body line is an end line; the end marker line holds the
    epilog phrase and is no header. Then the captured body is the N body
    lines in order, without the end marker line, and the record appended to
    the target of the artifact carries them joined by line feeds. *)
Theorem framed_body_captured
    (name content : string) (leading body trailing : list string)
    (start stop : string) (w : world) (i : nat) :
  splitlines content = leading ++ start :: body ++ stop :: trailing →
  Forall (λ l, is_plain_line l = true) leading →
  is_header start = true →
  Forall (λ l, is_end_line l = false) body →
  is_end_line stop = true →
  Forall (λ l, is_plain_line l = true) trailing →
  query_first (nmap_ipaddr (stem name)) (session (db_mgr w)) = Some i →
  scan_lines (false, []) (splitlines content) = Returned (false, body)
  ∧ parse_entry false (name, content) w
    = (Returned false,
       set_db_mgr (db_update i (add_nmap_result {| nr_text := join newline body |})
                     (db_mgr w)) w).
Proof.
  intros Hc Hl Hs Hb He Ht Hq.
  assert (scan_lines (false, []) (splitlines content) = Returned (false, body)) as Hscan
    by (rewrite Hc; now apply scan_lines_framed).
  split; [exact Hscan|].
  now apply parse_entry_returned.
Qed.

Lemma framed_body_captured_witness :
  let body := ["22/tcp open  ssh     OpenSSH 7.9"; "80/tcp open  http    nginx"] in
  let w := sample_world [known_artifact] in
  scan_lines (false, []) (splitlines scan_text) = Returned (false, body)
  ∧ parse_entry false known_artifact w
    = (Returned false,
       set_db_mgr (db_update 0 (add_nmap_result {| nr_text := join newline body |})
                     (db_mgr w)) w).
Proof.
  intros body w.
  apply (framed_body_captured "nmap.10.10.10.5-tcp.nmap" scan_text
           ["Starting Nmap 7.80 ( https://nmap.org )"] body
           ["Nmap done: 1 IP address (1 host up)"]
           "PORT   STATE SERVICE VERSION"
           "Service detection performed. Please report any incorrect results."
           w 0);
    try (vm_compute; reflexivity);
    repeat constructor.
Defined.

(** C5, as stated, fails when the lines after the end marker are arbitrary:
    a second header among them opens the body again, and what follows it is
    captured after the N body lines. *)
Lemma trailing_header_reopens_body :
  let leading := ["Starting Nmap 7.80 ( https://nmap.org )"] in
  let start := "PORT   STATE SERVICE VERSION" in
  let body := ["22/tcp open  ssh     OpenSSH 7.9"] in
  let stop := "Service detection performed. Please report any incorrect results." in
  let trailing := ["PORT   STATE SERVICE VERSION"; "161/udp open  snmp"] in
  is_header start = true
  ∧ is_end_line stop = true
  ∧ scan_lines (false, []) (leading ++ start :: body ++ stop :: trailing)
    = Returned (true, body ++ ["161/udp open  snmp"])
  ∧ scan_lines (false, []) (leading ++ start :: body ++ stop :: trailing)
    ≠ Returned (false, body).
Proof. vm_compute. repeat split. discriminate. Qed.

(** ** An artifact without header (C2) *)

(** Entered outside a body, an artifact with neither marker has an empty
    result appended to its target. *)
Lemma no_marker_empty_result (entry : string * string) (w : world) (i : nat) :
  Forall (λ l, is_header l = false) (splitlines entry.2) →
  Forall (λ l, is_epilog l = false) (splitlines entry.2) →
  query_first (nmap_ipaddr (stem entry.1)) (session (db_mgr w)) = Some i →
  parse_entry false entry w
  = (Returned false,
     set_db_mgr (db_update i (add_nmap_result {| nr_text := "" |}) (db_mgr w)) w).
Proof.
  intros Hh He Hq.
  now rewrite (parse_entry_returned false entry w false [] i
                 (scan_lines_no_marker _ Hh He) Hq).
Qed.

(** C2 fails on the code: entered outside a body, an artifact without
    header line that holds the epilog phrase makes [text.pop()] run on the
    empty list. The round raises [IndexError] and the world stays as it
    was: no empty result is appended for the artifact. *)
Theorem epilog_without_header_raises (entry : string * string) (w : world) :
  Forall (λ l, is_header l = false) (splitlines entry.2) →
  Exists (λ l, is_epilog l = true) (splitlines entry.2) →
  parse_entry false entry w = (Raised (IndexError "pop from empty list"), w).
Proof.
  intros Hh He. apply parse_entry_scan_raised.
  now apply scan_lines_epilog_without_header.
Qed.

Lemma epilog_without_header_raises_witness :
  let entry := ("nmap.10.10.10.5-tcp.nmap",
                unlines ["Nmap scan report for 10.10.10.5";
                         "Service detection performed. Please report any incorrect results."]) in
  parse_entry false entry (sample_world [entry])
  = (Raised (IndexError "pop from empty list"), sample_world [entry]).
Proof.
  intros entry.
  apply (epilog_without_header_raises entry (sample_world [entry]));
    [vm_compute; repeat constructor | vm_compute].
  apply Exists_cons_tl, Exists_cons_hd. reflexivity.
Defined.

(** ** The state of the scanner between artifacts (C9) *)

(** Entered inside a body, the lines before the header and the header
    itself are captured as well. *)
Lemma scan_lines_framed_open leading start body stop trailing :
  Forall (λ l, is_plain_line l = true) leading →
  is_header start = true →
  Forall (λ l, is_end_line l = false) body →
  is_end_line stop = true →
  Forall (λ l, is_plain_line l = true) trailing →
  scan_lines (true, []) (leading ++ start :: body ++ stop :: trailing)
  = Returned (false, leading ++ start :: body).
Proof.
  intros Hl Hs Hb He Ht.
  assert (Forall (λ l, is_end_line l = false) (leading ++ start :: body)) as Hall.
  { apply Forall_app. split.
    - eapply Forall_impl; [exact Hl|]. cbv beta. intros l [Hh Hp]%andb_true_iff.
      apply negb_true_iff in Hp. unfold is_end_line. rewrite Hp. apply andb_false_r.
    - constructor; [|exact Hb]. unfold is_end_line. now rewrite Hs. }
  replace (leading ++ start :: body ++ stop :: trailing)
    with ((leading ++ start :: body) ++ stop :: trailing)
    by (now rewrite <- app_assoc).
  rewrite scan_lines_app, scan_lines_body by exact Hall.
  cbn [scan_lines app]. rewrite scan_line_end by exact He.
  now apply scan_lines_plain_closed.
Qed.

(** C9 fails on the code: [sentry] is set to [False] once, before the loop
    over the artifacts. The udp artifact below has a header and no epilog,
    so the tcp artifact after it is entered inside a body: its banner line
    and its header line are appended to its result, which alone in the
    folder it would not have. *)
Theorem sentry_leaks_between_artifacts :
  let udp := ("nmap.10.10.10.5-udp.nmap",
              unlines ["PORT    STATE SERVICE VERSION"; "161/udp open  snmp"]) in
  let self := sample_scan (PyStr "2") in
  map nr_text (concat (map nmap_results
    (session (db_mgr (parse_nmap_output self (sample_world [known_artifact])).2))))
  = [join newline ["22/tcp open  ssh     OpenSSH 7.9"; "80/tcp open  http    nginx"]]
  ∧ map nr_text (concat (map nmap_results
      (session (db_mgr (parse_nmap_output self (sample_world [udp; known_artifact])).2))))
    = [join newline ["161/udp open  snmp"];
       join newline ["Starting Nmap 7.80 ( https://nmap.org )";
                     "PORT   STATE SERVICE VERSION";
                     "22/tcp open  ssh     OpenSSH 7.9";
                     "80/tcp open  http    nginx"]].
Proof. vm_compute. split; reflexivity. Qed.

(** ** The thread count (C3, C4) *)

Section Run.

Context `{Environment}.

Lemma coerce_threads_none self w :
  threads (nmap_params self) = PyNone →
  coerce_threads self w
  = (Returned None,
     set_log (log w ++ ["The value supplied to --threads must be a non-negative integer."]) w).
Proof. intros Ht. unfold coerce_threads, try_except_TypeError. unfold_M. now rewrite Ht. Qed.

Lemma coerce_threads_int self w n :
  py_int (threads (nmap_params self)) = Returned n →
  coerce_threads self w = (Returned (Some (Z.abs n)), w).
Proof. intros Ht. unfold coerce_threads, try_except_TypeError. unfold_M. now rewrite Ht. Qed.

Lemma coerce_threads_bad_literal self w s :
  threads (nmap_params self) = PyStr s →
  parse_int s = None →
  coerce_threads self w
  = (Raised (ValueError "invalid literal for int() with base 10"), w).
Proof.
  intros Ht Hp. unfold coerce_threads, try_except_TypeError. unfold_M.
  rewrite Ht. simpl. now rewrite Hp.
Qed.

(** The handler of [run] is reached by a [TypeError] only: for [None] the
    run logs the message that names [--threads] and returns. *)
Lemma nmap_run_threads_none self w :
  threads (nmap_params self) = PyNone →
  nmap_run self w
  = (Returned (),
     set_log (log w ++ ["The value supplied to --threads must be a non-negative integer."]) w).
Proof.
  intros Ht. unfold nmap_run. unfold mbind, M_bind, bind.
  now rewrite (coerce_threads_none _ _ Ht).
Qed.

Lemma parse_nmap_output_dispatched self w :
  dispatched (parse_nmap_output self w).2 = dispatched w.
Proof.
  rewrite parse_nmap_output_unfold.
  match goal with |- context [parse_entries false ?es w] =>
    pose proof (parse_entries_session_only false es w) as Hs;
    destruct (parse_entries false es w) as [[s|e] w']
  end; destruct Hs as (_&_&Hd&_); exact Hd.
Qed.

(** With a thread count above zero, a loadable input and an output folder
    that can be made, [run] hands every generated command to the pool and
    then parses what the scans left behind. *)
Lemma nmap_run_dispatches self w n d w1 :
  py_int (threads (nmap_params self)) = Returned n →
  Z.abs n ≠ 0%Z →
  upstream w = Some d →
  mkdir_p (nmap_output_path (nmap_params self)) w = (Returned (), w1) →
  let commands := make_commands (nmap_output_path (nmap_params self)) d in
  nmap_run self w
  = parse_nmap_output self
      (set_fs (nmap_tool commands (fs w1)) (set_dispatched (dispatched w1 ++ commands) w1))
  ∧ dispatched (nmap_run self w).2 = dispatched w ++ commands.
Proof.
  intros Ht Hn Hu Hm commands.
  assert (nmap_run self w
          = parse_nmap_output self
              (set_fs (nmap_tool commands (fs w1))
                 (set_dispatched (dispatched w1 ++ commands) w1))) as Hrun.
  { unfold nmap_run. unfold mbind, M_bind, bind.
    rewrite (coerce_threads_int _ _ _ Ht).
    unfold load_input, get_world, raise, ret. unfold mbind, M_bind, bind.
    rewrite Hu, Hm. unfold thread_pool.
    destruct (Z.leb_spec (Z.abs n) 0) as [Hle|Hgt]; [lia|].
    reflexivity. }
  split; [exact Hrun|]. rewrite Hrun, parse_nmap_output_dispatched. simpl.
  unfold mkdir_p in Hm.
  destruct (fs w !! nmap_output_path (nmap_params self)) as [[c|es]|];
    inversion Hm; subst; reflexivity.
Qed.

End Run.

(** C3 fails on the code: the handler of [run] catches [TypeError], and
    [int] raises [ValueError] on a string that is no integer literal. For
    such a value of [threads] the run is left through that [ValueError]
    with the world as it was: nothing is logged, the message that names
    [--threads] is not reported. *)
Theorem non_numeric_threads_unhandled `{Environment}
    (self : ThreadedNmapScan) (s : string) (w : world) :
  threads (nmap_params self) = PyStr s →
  parse_int s = None →
  nmap_run self w = (Raised (ValueError "invalid literal for int() with base 10"), w).
Proof.
  intros Ht Hp. unfold nmap_run. unfold mbind, M_bind, bind.
  now rewrite (coerce_threads_bad_literal _ _ _ Ht Hp).
Qed.

Lemma non_numeric_threads_unhandled_witness :
  let w := sample_world [known_artifact] in
  nmap_run (sample_scan (PyStr "abc")) w
  = (Raised (ValueError "invalid literal for int() with base 10"), w).
Proof.
  intros w.
  apply (@non_numeric_threads_unhandled sample_environment
           (sample_scan (PyStr "abc")) "abc" w); reflexivity.
Defined.

(** C4, as amended: when [threads] coerces to zero, the input is loaded
    and the output path is not taken by a regular file, the run does not
    return and hands no command to the pool, yet not through a
    configuration error of its own. The zero passes the coercion, nothing
    is logged, the input is loaded and the output folder made if it was
    absent; what then ends the run is the [ValueError] of the constructor
    of the pool, "max_workers must be greater than 0", which nothing
    handles. The store is left as it was. *)
Theorem zero_threads_ends_in_pool_error `{Environment}
    (self : ThreadedNmapScan) (n : Z) (w : world) (d : ip_dict) :
  py_int (threads (nmap_params self)) = Returned n →
  Z.abs n = 0%Z →
  upstream w = Some d →
  (∀ content, fs w !! nmap_output_path (nmap_params self) ≠ Some (File content)) →
  let out := nmap_output_path (nmap_params self) in
  let w1 := match fs w !! out with
            | None => set_fs (<[out := Dir []]> (fs w)) w
            | Some _ => w
            end in
  nmap_run self w = (Raised (ValueError "max_workers must be greater than 0"), w1)
  ∧ dispatched w1 = dispatched w
  ∧ log w1 = log w
  ∧ db_mgr w1 = db_mgr w.
Proof.
  intros Ht Hn Hu Hfile out w1.
  split.
  - unfold nmap_run. unfold mbind, M_bind, bind.
    rewrite (coerce_threads_int _ _ _ Ht), Hn.
    unfold load_input, get_world, raise, ret. unfold mbind, M_bind, bind.
    rewrite Hu. unfold mkdir_p. subst w1. fold out.
    destruct (fs w !! out) as [[c|es]|] eqn:Hfs; try reflexivity.
    exfalso. exact (Hfile c Hfs).
  - subst w1. destruct (fs w !! out) as [node|]; now repeat split.
Qed.

Lemma zero_threads_ends_in_pool_error_witness :
  let self := sample_scan (PyStr "0") in
  let w := sample_world [known_artifact] in
  let out := nmap_output_path (nmap_params self) in
  let w1 := match fs w !! out with
            | None => set_fs (<[out := Dir []]> (fs w)) w
            | Some _ => w
            end in
  nmap_run self w = (Raised (ValueError "max_workers must be greater than 0"), w1)
  ∧ dispatched w1 = dispatched w
  ∧ log w1 = log w
  ∧ db_mgr w1 = db_mgr w.
Proof.
  intros self w.
  apply (@zero_threads_ends_in_pool_error sample_environment self 0 w
           [("10.10.10.5", [("tcp", {[ "22"; "80" ]})])]);
    try reflexivity.
  intros content Hfs. vm_compute in Hfs. discriminate Hfs.
Defined.

(** C4, as stated, fails: with [threads] at "0" and no output folder yet,
    the run is ended by the error of the pool, which names [max_workers];
    the log stays empty, so the message that names [--threads] is never
    reported, and by then the output folder has been made. The
    configuration error of the task looks otherwise: for [None] the message
    is logged and nothing is made. *)
Lemma zero_threads_reports_no_configuration_error :
  let w := set_fs ∅ (sample_world []) in
  let out := nmap_output_path (nmap_params (sample_scan (PyStr "0"))) in
  let r := nmap_run (sample_scan (PyStr "0")) w in
  let r' := nmap_run (sample_scan PyNone) w in
  r.1 = Raised (ValueError "max_workers must be greater than 0")
  ∧ log w = [] ∧ log r.2 = []
  ∧ fs w !! out = None ∧ fs r.2 !! out = Some (Dir [])
  ∧ r'.1 = Returned ()
  ∧ log r'.2 = ["The value supplied to --threads must be a non-negative integer."]
  ∧ fs r'.2 !! out = None.
Proof. vm_compute. repeat split. Qed.

(** ** The command of a scan (C6) *)

Section Commands.

Context `{Environment}.

(** The vector of one scan, written out. *)
Lemma make_command_eq out target protocol ports :
  make_command out target protocol ports
  = [ "nmap"; "--open";
      if bool_decide (protocol = "tcp") then "-sT" else "-sU";
      "-n"; "-sC"; "-T"; "4"; "-sV"; "-Pn"; "-p";
      join "," (set_iter ports);
      "-oA";
      path_join out ("nmap." +:+ target +:+ "-" +:+ protocol);
      target ].
Proof. reflexivity. Qed.

Lemma make_commands_elem out (d : ip_dict) target protocol_dict protocol ports :
  (target, protocol_dict) ∈ d →
  (protocol, ports) ∈ protocol_dict →
  make_command out target protocol ports ∈ make_commands out d.
Proof.
  intros Ht Hp. unfold make_commands.
  apply list_elem_of_bind. exists (target, protocol_dict). split; [|exact Ht].
  apply list_elem_of_bind. exists (protocol, ports). split; [|exact Hp].
  apply list_elem_of_singleton. reflexivity.
Qed.

Lemma length_append (a b : string) :
  String.length (a +:+ b) = (String.length a + String.length b)%nat.
Proof. induction a as [|c a IH]; simpl; [reflexivity | now rewrite IH]. Qed.


End Commands.





(** * Further properties *)

(** ** From the name of an artifact back to its target *)

Section Names.

Lemma startswith_append (p x : string) : startswith p (p +:+ x) = true.
Proof.
  induction p as [|c p IH]; [reflexivity|].
  cbn [append startswith]. now rewrite Ascii.eqb_refl.
Qed.

Lemma rev_onto_append (acc a b : string) :
  rev_onto acc (a +:+ b) = rev_onto (rev_onto acc a) b.
Proof. revert acc; induction a as [|c a IH]; intros acc; simpl; [reflexivity | apply IH]. Qed.

Lemma rev_onto_acc (acc s : string) : rev_onto acc s = rev_onto "" s +:+ acc.
Proof.
  revert acc; induction s as [|c s IH]; intros acc; [reflexivity|].
  cbn [rev_onto]. rewrite IH, (IH (String c "")), append_assoc. reflexivity.
Qed.

Lemma rev_append (a b : string) : rev (a +:+ b) = rev b +:+ rev a.
Proof. unfold rev. now rewrite rev_onto_append, rev_onto_acc. Qed.

Lemma rev_involutive (s : string) : rev (rev s) = s.
Proof.
  induction s as [|c s IH]; [reflexivity|].
  change (String c s) with (String c "" +:+ s) at 1.
  rewrite rev_append, rev_append, IH. reflexivity.
Qed.

Lemma endswith_append (suf x : string) : endswith suf (x +:+ suf) = true.
Proof. unfold endswith. rewrite rev_append. apply startswith_append. Qed.

(** A pattern that does not occur is not replaced. *)
Lemma replace_go_absent (old new s : string) :
  contains old s = false → replace_go old new 0 s = s.
Proof.
  induction s as [|c s IH]; intros Hc; [reflexivity|].
  cbn [contains] in Hc. apply orb_false_iff in Hc as [Hs Hc].
  cbn [replace_go]. rewrite Hs. f_equal. now apply IH.
Qed.

Lemma split_last_dot_append (s e : string) :
  split_last_dot e = None →
  split_last_dot (s +:+ String "." e) = Some (s, e).
Proof.
  intros He. induction s as [|c s IH].
  - cbn [append split_last_dot]. now rewrite He.
  - cbn [append split_last_dot]. now rewrite IH.
Qed.

(** The stem of the artifact the scan of [address] over [protocol] leaves
    behind is the base the run gave to [-oA]. *)
Lemma stem_artifact_name (address protocol ext : string) :
  split_last_dot ext = None → ext ≠ "" →
  stem (artifact_name address protocol (String "." ext))
  = artifact_stem address protocol.
Proof.
  intros He Hne. unfold stem, artifact_name.
  rewrite (split_last_dot_append _ _ He).
  destruct ext as [|d ext]; [contradiction|]. reflexivity.
Qed.

End Names.

(** X1: the names [run] gives and the names the two parsers read fit
    together. For a target that holds neither a dash nor [nmap.], scanned
    over tcp or udp, the [.nmap] file written under the [-oA] base is found
    by the glob of [parse_nmap_output] and its stem gives back the target;
    the [.xml] file is found by the glob of [SearchsploitScan.run] and its
    stem gives back the target as well. *)
Theorem artifact_names_round_trip (target protocol : string) :
  contains "-" target = false →
  contains "nmap." target = false →
  protocol = "tcp" ∨ protocol = "udp" →
  glob_match "nmap" ".nmap" (artifact_name target protocol ".nmap") = true
  ∧ nmap_ipaddr (stem (artifact_name target protocol ".nmap")) = target
  ∧ glob_match "nmap" ".xml" (artifact_name target protocol ".xml") = true
  ∧ ss_ipaddr (stem (artifact_name target protocol ".xml")) = target.
Proof.
  intros Hd Hn Hp.
  assert (replace "nmap." "" target = target) as Hr
    by (apply replace_go_absent, Hn).
  assert (∀ ext, glob_match "nmap" ext (artifact_name target protocol ext) = true
                 ∨ (String.length ext > 5)%nat) as Hglob.
  { intros ext. destruct (le_gt_dec (String.length ext) 5) as [Hle|Hgt]; [left | right; lia].
    unfold glob_match, artifact_name.
    rewrite endswith_append, andb_true_r.
    apply andb_true_iff. split; [reflexivity|].
    apply Nat.leb_le. unfold artifact_stem. rewrite !length_append. simpl. lia. }
  rewrite !stem_artifact_name by (reflexivity || discriminate).
  assert (nmap_ipaddr (artifact_stem target protocol) = target) as Hnm.
  { unfold nmap_ipaddr. rewrite split_hd, replace_artifact_stem, Hr.
    now apply split_go_dash. }
  assert (ss_ipaddr (artifact_stem target protocol) = target) as Hss.
  { unfold ss_ipaddr. rewrite replace_artifact_stem, Hr. unfold replace.
    destruct Hp as [-> | ->].
    - rewrite (replace_go_dash_pattern "tcp" "" target _ Hd).
      change (replace_go "-tcp" "" 0 (String "-" (replace_go "nmap." "" 0 "tcp"))) with "".
      rewrite append_nil_r. now apply replace_go_dash_pattern_id.
    - rewrite (replace_go_dash_pattern "tcp" "" target _ Hd).
      change (replace_go "-tcp" "" 0 (String "-" (replace_go "nmap." "" 0 "udp")))
        with "-udp".
      rewrite (replace_go_dash_pattern "udp" "" target "-udp" Hd).
      change (replace_go "-udp" "" 0 "-udp") with "". apply append_nil_r. }
  repeat split; try assumption.
  - destruct (Hglob ".nmap") as [Hg|Hg]; [exact Hg | simpl in Hg; lia].
  - destruct (Hglob ".xml") as [Hg|Hg]; [exact Hg | simpl in Hg; lia].
Qed.

Lemma artifact_names_round_trip_witness :
  glob_match "nmap" ".nmap" (artifact_name "10.10.10.5" "udp" ".nmap") = true
  ∧ nmap_ipaddr (stem (artifact_name "10.10.10.5" "udp" ".nmap")) = "10.10.10.5"
  ∧ glob_match "nmap" ".xml" (artifact_name "10.10.10.5" "udp" ".xml") = true
  ∧ ss_ipaddr (stem (artifact_name "10.10.10.5" "udp" ".xml")) = "10.10.10.5".
Proof.
  apply (artifact_names_round_trip "10.10.10.5" "udp");
    [reflexivity | reflexivity | right; reflexivity].
Defined.

(** ** More on the scanner of one artifact *)

Section ScannerMore.

Implicit Types (line : string) (lines text : list string) (sentry : bool).

Lemma scan_line_not_end st line :
  is_end_line line = false → ∃ st', scan_line st line = Returned st'.
Proof.
  destruct st as [sentry text]. unfold is_end_line, scan_line. intros H.
  destruct (is_header line); [eauto|]. simpl in H. rewrite H. eauto.
Qed.

Lemma scan_line_raised st line e :
  scan_line st line = Raised e →
  e = IndexError "pop from empty list" ∧ is_end_line line = true ∧ st = (false, []).
Proof.
  destruct st as [sentry text]. unfold is_end_line, scan_line.
  destruct (is_header line); [discriminate|].
  destruct (is_epilog line); [|discriminate].
  destruct sentry.
  - rewrite pop_snoc. discriminate.
  - destruct text as [|x text]; simpl; [|discriminate].
    intros [= <-]. auto.
Qed.

Lemma removelast_sublist {A} (l : list A) : removelast l `sublist_of` l.
Proof.
  induction l as [|x [|y l] IH]; simpl; [reflexivity | apply sublist_nil_l |].
  now apply sublist_skip.
Qed.

Lemma pop_sublist {A} (l l' : list A) : pop l = Returned l' → l' `sublist_of` l.
Proof.
  unfold pop. destruct l as [|x l]; [discriminate|]. intros [= <-].
  apply (removelast_sublist (x :: l)).
Qed.

Lemma scan_line_sublist sentry text line sentry' text' :
  scan_line (sentry, text) line = Returned (sentry', text') →
  text' `sublist_of` text ++ [line].
Proof.
  unfold scan_line.
  assert ((if sentry then text ++ [line] else text) `sublist_of` text ++ [line]) as Hs.
  { destruct sentry; [reflexivity | now apply sublist_inserts_r]. }
  destruct (is_header line); [now intros [= <- <-]|].
  destruct (is_epilog line); [|now intros [= <- <-]].
  destruct (pop _) as [t|e] eqn:Hp; [|discriminate].
  intros [= <- <-]. etransitivity; [apply (pop_sublist _ _ Hp) | exact Hs].
Qed.

(** Outside a body an end line takes the last captured line away. *)
Lemma scan_line_end_outside text x line :
  is_end_line line = true →
  scan_line (false, text ++ [x]) line = Returned (false, text).
Proof.
  unfold is_end_line, scan_line. intros [Hh He]%andb_true_iff.
  apply negb_true_iff in Hh. rewrite Hh, He. now rewrite pop_snoc.
Qed.

End ScannerMore.

(** X2: once the text of an artifact is read and split into lines, the
    body of the loop over these lines can fail in one way only. Whatever
    values [sentry] and [text] have when the loop starts, an exception it
    raises is the [IndexError] of [pop] on the empty list, and one of the
    lines is then an end line (a line with the epilog phrase that is no
    header). Reading the artifact is outside this statement. *)
Theorem scanner_raises_only_on_end_line
    (st : bool * list string) (lines : list string) (e : exn) :
  scan_lines st lines = Raised e →
  e = IndexError "pop from empty list"
  ∧ Exists (λ l, is_end_line l = true) lines.
Proof.
  revert st; induction lines as [|l lines IH]; intros st; [discriminate|].
  cbn [scan_lines]. destruct (scan_line st l) as [st'|e'] eqn:Hl.
  - intros Hr. destruct (IH _ Hr) as [He Hex]. split; [exact He|].
    now apply Exists_cons_tl.
  - intros [= <-]. destruct (scan_line_raised _ _ _ Hl) as (He & Hend & _).
    split; [exact He|]. now apply Exists_cons_hd.
Qed.

Lemma scanner_raises_only_on_end_line_witness :
  IndexError "pop from empty list" = IndexError "pop from empty list"
  ∧ Exists (λ l, is_end_line l = true)
      ["Nmap scan report for 10.10.10.5"; "Service detection performed."].
Proof.
  apply (scanner_raises_only_on_end_line (false, [])
           ["Nmap scan report for 10.10.10.5"; "Service detection performed."]).
  reflexivity.
Defined.

(** X3: what the scanner captures is made of lines of the artifact, in
    their order: the text at the end is a subsequence of the text at the
    start followed by the lines read. *)
Theorem captured_text_is_subsequence
    (sentry sentry' : bool) (text text' lines : list string) :
  scan_lines (sentry, text) lines = Returned (sentry', text') →
  text' `sublist_of` text ++ lines.
Proof.
  revert sentry text; induction lines as [|l lines IH]; intros sentry text.
  - cbn [scan_lines]. intros [= <- <-]. now rewrite app_nil_r.
  - cbn [scan_lines]. destruct (scan_line (sentry, text) l) as [[s1 t1]|e] eqn:Hl;
      [|discriminate].
    intros Hr. apply IH in Hr. apply scan_line_sublist in Hl.
    etransitivity; [exact Hr|].
    replace (text ++ l :: lines) with ((text ++ [l]) ++ lines)
      by (now rewrite <- app_assoc).
    now apply sublist_app.
Qed.

Lemma captured_text_is_subsequence_witness :
  ["22/tcp open  ssh     OpenSSH 7.9"; "80/tcp open  http    nginx"]
  `sublist_of` [] ++ splitlines scan_text.
Proof.
  apply (captured_text_is_subsequence false false). reflexivity.
Defined.

(** X4: an end line met outside a body takes a captured line away. When
    the framed part of an artifact is followed, after lines without
    marker, by a second end line, the last of the body lines is lost. *)
Theorem second_end_line_drops_last_body_line
    (leading body mid trailing : list string) (start last_line stop stop2 : string) :
  Forall (λ l, is_plain_line l = true) leading →
  is_header start = true →
  Forall (λ l, is_end_line l = false) (body ++ [last_line]) →
  is_end_line stop = true →
  Forall (λ l, is_plain_line l = true) mid →
  is_end_line stop2 = true →
  Forall (λ l, is_plain_line l = true) trailing →
  scan_lines (false, [])
    ((leading ++ start :: (body ++ [last_line]) ++ stop :: mid) ++ stop2 :: trailing)
  = Returned (false, body).
Proof.
  intros Hl Hs Hb He Hm He2 Ht.
  rewrite scan_lines_app.
  rewrite (scan_lines_framed leading start (body ++ [last_line]) stop mid Hl Hs Hb He Hm).
  cbn [scan_lines]. rewrite (scan_line_end_outside body last_line stop2 He2).
  now apply scan_lines_plain_closed.
Qed.

Lemma second_end_line_drops_last_body_line_witness :
  scan_lines (false, [])
    ((["Starting Nmap 7.80"] ++ "PORT   STATE SERVICE VERSION"
        :: (["22/tcp open  ssh"] ++ ["80/tcp open  http"])
        ++ "Service detection performed." :: ["Nmap done"])
       ++ "Service detection performed." :: [])
  = Returned (false, ["22/tcp open  ssh"]).
Proof.
  apply (second_end_line_drops_last_body_line ["Starting Nmap 7.80"] ["22/tcp open  ssh"]
           ["Nmap done"] [] "PORT   STATE SERVICE VERSION" "80/tcp open  http"
           "Service detection performed." "Service detection performed.");
    try reflexivity; repeat constructor.
Defined.

(** ** What the passes keep of the store *)

Section StoreInvariants.

Implicit Types (t : Target) (ts : list Target) (db : DBManager).

Lemma query_first_lookup ipaddr ts i :
  query_first ipaddr ts = Some i →
  ∃ t, ts !! i = Some t ∧ has_address ipaddr t = true.
Proof.
  revert i; induction ts as [|t ts IH]; intros i; [discriminate|].
  cbn [query_first]. destruct (has_address ipaddr t) eqn:Ha.
  - intros [= <-]. eauto.
  - destruct (query_first ipaddr ts) as [j|]; [|discriminate].
    intros [= <-]. destruct (IH j eq_refl) as (t' & Hl & Ht). eauto.
Qed.

Lemma query_first_before (ipaddr : string) (ts : list Target) (i j : nat) (t : Target) :
  query_first ipaddr ts = Some i →
  (j < i)%nat → ts !! j = Some t → has_address ipaddr t = false.
Proof.
  revert i j; induction ts as [|x ts IH]; intros i j; [discriminate|].
  cbn [query_first]. destruct (has_address ipaddr x) eqn:Ha.
  - intros [= <-] Hlt. lia.
  - destruct (query_first ipaddr ts) as [k|] eqn:Hq; [|discriminate].
    intros [= <-] Hlt. destruct j as [|j].
    + now intros [= <-].
    + intros Hl. apply (IH k j eq_refl); [lia | exact Hl].
Qed.

Lemma nmap_extended_refl t : nmap_extended t t.
Proof. now repeat split. Qed.

Lemma nmap_extended_trans t1 t2 t3 :
  nmap_extended t1 t2 → nmap_extended t2 t3 → nmap_extended t1 t3.
Proof.
  intros (?&?&?&?) (?&?&?&?). repeat split; try congruence.
  etransitivity; eassumption.
Qed.

Lemma nmap_extended_add nmr t : nmap_extended t (add_nmap_result nmr t).
Proof. repeat split. simpl. now apply prefix_app_r. Qed.

Lemma ss_extended_refl t : ss_extended t t.
Proof. now repeat split. Qed.

Lemma ss_extended_trans t1 t2 t3 :
  ss_extended t1 t2 → ss_extended t2 t3 → ss_extended t1 t3.
Proof.
  intros (?&?&?&?) (?&?&?&?). repeat split; try congruence.
  etransitivity; eassumption.
Qed.

Lemma ss_extended_add ssr t : ss_extended t (add_searchsploit_result ssr t).
Proof. repeat split. simpl. now apply prefix_app_r. Qed.

Lemma Forall2_alter_diag (R : Target → Target → Prop) f ts i :
  (∀ t, R t t) → (∀ t, R t (f t)) → Forall2 R ts (alter f i ts).
Proof.
  intros Hrefl Hf. apply Forall2_alter_r.
  - apply Forall_Forall2_diag, Forall_forall. auto.
  - intros x y Hx Hy _. rewrite Hx in Hy. injection Hy as <-. apply Hf.
Qed.

Lemma sum_list_with_alter (f : Target → nat) g ts i t :
  ts !! i = Some t →
  (sum_list_with f (alter g i ts) + f t = sum_list_with f ts + f (g t))%nat.
Proof.
  revert i; induction ts as [|x ts IH]; intros [|i]; try discriminate.
  - intros [= ->]. simpl. lia.
  - intros Hl. simpl in *. specialize (IH i Hl).
    change (list_alter g i ts) with (alter g i ts). lia.
Qed.

Lemma parse_entry_extends sentry entry w :
  Forall2 nmap_extended (session (db_mgr w))
    (session (db_mgr (parse_entry sentry entry w).2)).
Proof.
  assert (Forall2 nmap_extended (session (db_mgr w)) (session (db_mgr w))) as Hrefl
    by (apply Forall_Forall2_diag, Forall_forall; intros; apply nmap_extended_refl).
  unfold parse_entry. unfold_M.
  destruct (scan_lines _ _) as [[s t]|e]; [|exact Hrefl].
  destruct (query_first _ _); simpl; [|exact Hrefl].
  apply Forall2_alter_diag; auto using nmap_extended_refl, nmap_extended_add.
Qed.

Lemma parse_entries_extends sentry entries w :
  Forall2 nmap_extended (session (db_mgr w))
    (session (db_mgr (parse_entries sentry entries w).2)).
Proof.
  revert sentry w; induction entries as [|entry entries IH]; intros sentry w.
  - apply Forall_Forall2_diag, Forall_forall; intros; apply nmap_extended_refl.
  - rewrite parse_entries_cons.
    pose proof (parse_entry_extends sentry entry w) as Hstep.
    destruct (parse_entry sentry entry w) as [[s'|e] w']; simpl in *; [|exact Hstep].
    eapply Forall2_trans; [apply nmap_extended_trans | exact Hstep | apply IH].
Qed.

Lemma parse_entry_count sentry entry w sentry' w' :
  parse_entry sentry entry w = (Returned sentry', w') →
  nmap_result_count (session (db_mgr w'))
  = S (nmap_result_count (session (db_mgr w))).
Proof.
  unfold parse_entry. unfold_M.
  destruct (scan_lines _ _) as [[s t]|e]; [|discriminate].
  destruct (query_first _ _) as [i|] eqn:Hq; [|discriminate].
  intros [= <- <-]. simpl.
  destruct (query_first_lookup _ _ _ Hq) as (tgt & Hl & _).
  unfold nmap_result_count.
  pose proof (sum_list_with_alter (λ t, length (nmap_results t))
                (add_nmap_result {| nr_text := join newline t |})
                _ _ _ Hl) as Hsum.
  simpl in Hsum. rewrite length_app in Hsum. simpl in Hsum. lia.
Qed.

Lemma parse_entries_count sentry entries w sentry' w' :
  parse_entries sentry entries w = (Returned sentry', w') →
  nmap_result_count (session (db_mgr w'))
  = (nmap_result_count (session (db_mgr w)) + length entries)%nat.
Proof.
  revert sentry w; induction entries as [|entry entries IH]; intros sentry w.
  - intros [= <- <-]. simpl. lia.
  - rewrite parse_entries_cons.
    destruct (parse_entry sentry entry w) as [[s1|e] w1] eqn:Hstep; [|discriminate].
    intros Hrest. apply IH in Hrest. apply parse_entry_count in Hstep.
    rewrite Hrest, Hstep. simpl. lia.
Qed.

End StoreInvariants.

(** X5: the service-scan pass only appends scan results. Whether it
    returns or raises, the session afterwards holds the same targets in the
    same order, each with its addresses and its exploit matches unchanged
    and with its earlier scan results as a prefix of its scan results. *)
Theorem nmap_pass_append_only (self : ThreadedNmapScan) (w : world) :
  Forall2 nmap_extended (session (db_mgr w))
    (session (db_mgr (parse_nmap_output self w).2)).
Proof.
  rewrite parse_nmap_output_unfold.
  match goal with |- context [parse_entries false ?es w] =>
    pose proof (parse_entries_extends false es w) as Hs;
    destruct (parse_entries false es w) as [[s|e] w']
  end; exact Hs.
Qed.

(** X6: a service-scan pass that returns has appended one scan result for
    each artifact its glob yielded, no more and no less. *)
Theorem nmap_pass_one_result_per_artifact
    (self : ThreadedNmapScan) (w w' : world) (entries : list (string * string)) :
  glob (nmap_output_path (nmap_params self)) "nmap" ".nmap" w = (Returned entries, w) →
  parse_nmap_output self w = (Returned (), w') →
  nmap_result_count (session (db_mgr w'))
  = (nmap_result_count (session (db_mgr w)) + length entries)%nat.
Proof.
  intros Hg. rewrite (parse_nmap_output_glob _ _ _ Hg).
  destruct (parse_entries false entries w) as [[s|e] w1] eqn:Hp; [|discriminate].
  intros [= <-]. simpl. now apply (parse_entries_count false entries w s w1).
Qed.

Lemma nmap_pass_one_result_per_artifact_witness :
  let self := sample_scan (PyStr "2") in
  let w := sample_world [known_artifact; ("notes.txt", "x"); known_artifact] in
  nmap_result_count (session (db_mgr (parse_nmap_output self w).2))
  = (nmap_result_count (session (db_mgr w)) + length [known_artifact; known_artifact])%nat.
Proof.
  intros self w.
  apply (nmap_pass_one_result_per_artifact self w (parse_nmap_output self w).2
           [known_artifact; known_artifact]); vm_compute; reflexivity.
Defined.

(** ** The exploit-lookup pass *)

Section SearchsploitMore.

Context `{Environment}.

Implicit Types (entry : string * string) (entries : list (string * string)).

Lemma ss_line_appends ipaddr line w d i :
  contains "Title" line = true →
  ss_literal line = Returned (LitDict d) →
  query_first ipaddr (session (db_mgr w)) = Some i →
  ss_line ipaddr line w
  = (Returned (),
     set_db_mgr (db_update i (add_searchsploit_result (ssr_of_dict d)) (db_mgr w)) w).
Proof.
  intros Hc Hl Hq. unfold ss_line. rewrite Hc. unfold_M. now rewrite Hl, Hq.
Qed.

Lemma ss_line_literal_raised ipaddr line w e :
  contains "Title" line = true →
  ss_literal line = Raised e →
  ss_line ipaddr line w = (Raised e, w).
Proof. intros Hc Hl. unfold ss_line. rewrite Hc. unfold_M. now rewrite Hl. Qed.

Lemma ss_line_extends ipaddr line w :
  Forall2 ss_extended (session (db_mgr w))
    (session (db_mgr (ss_line ipaddr line w).2)).
Proof.
  assert (Forall2 ss_extended (session (db_mgr w)) (session (db_mgr w))) as Hrefl
    by (apply Forall_Forall2_diag, Forall_forall; intros; apply ss_extended_refl).
  unfold ss_line. destruct (contains "Title" line); [|exact Hrefl].
  unfold_M. destruct (ss_literal line) as [[d|]|e]; simpl; try exact Hrefl.
  destruct (query_first _ _); simpl; [|exact Hrefl].
  apply Forall2_alter_diag; auto using ss_extended_refl, ss_extended_add.
Qed.

Lemma ss_lines_extends ipaddr lines w :
  Forall2 ss_extended (session (db_mgr w))
    (session (db_mgr (ss_lines ipaddr lines w).2)).
Proof.
  revert w; induction lines as [|line lines IH]; intros w.
  - apply Forall_Forall2_diag, Forall_forall; intros; apply ss_extended_refl.
  - rewrite ss_lines_cons.
    pose proof (ss_line_extends ipaddr line w) as Hstep.
    destruct (ss_line ipaddr line w) as [[[]|e] w']; simpl in *; [|exact Hstep].
    eapply Forall2_trans; [apply ss_extended_trans | exact Hstep | apply IH].
Qed.

Lemma ss_entries_extends dir entries w :
  Forall2 ss_extended (session (db_mgr w))
    (session (db_mgr (ss_entries dir entries w).2)).
Proof.
  revert w; induction entries as [|entry entries IH]; intros w.
  - apply Forall_Forall2_diag, Forall_forall; intros; apply ss_extended_refl.
  - rewrite ss_entries_cons.
    assert (Forall2 ss_extended (session (db_mgr w))
              (session (db_mgr (ss_entry dir entry w).2))) as Hstep.
    { unfold ss_entry. case_bool_decide; [|apply ss_lines_extends].
      apply Forall_Forall2_diag, Forall_forall; intros; apply ss_extended_refl. }
    destruct (ss_entry dir entry w) as [[[]|e] w']; simpl in *; [|exact Hstep].
    eapply Forall2_trans; [apply ss_extended_trans | exact Hstep | apply IH].
Qed.

Lemma ss_line_count ipaddr line w w' :
  ss_line ipaddr line w = (Returned (), w') →
  ss_result_count (session (db_mgr w'))
  = (ss_result_count (session (db_mgr w))
     + if contains "Title" line then 1 else 0)%nat.
Proof.
  unfold ss_line. destruct (contains "Title" line).
  - unfold_M. destruct (ss_literal line) as [[d|]|e]; simpl; try discriminate.
    destruct (query_first _ _) as [i|] eqn:Hq; simpl; [|discriminate].
    intros [= <-]. simpl.
    destruct (query_first_lookup _ _ _ Hq) as (tgt & Hl & _).
    unfold ss_result_count.
    pose proof (sum_list_with_alter (λ t, length (searchsploit_results t))
                  (add_searchsploit_result (ssr_of_dict d)) _ _ _ Hl) as Hsum.
    simpl in Hsum. rewrite length_app in Hsum. simpl in Hsum.
    unfold ssr_of_dict in Hsum. lia.
  - intros [= <-]. lia.
Qed.

Lemma ss_lines_count ipaddr lines w w' :
  ss_lines ipaddr lines w = (Returned (), w') →
  ss_result_count (session (db_mgr w'))
  = (ss_result_count (session (db_mgr w))
     + length (List.filter (contains "Title") lines))%nat.
Proof.
  revert w; induction lines as [|line lines IH]; intros w.
  - intros [= <-]. simpl. lia.
  - rewrite ss_lines_cons.
    destruct (ss_line ipaddr line w) as [[[]|e] w1] eqn:Hstep; [|discriminate].
    intros Hrest. apply IH in Hrest. apply ss_line_count in Hstep.
    rewrite Hrest, Hstep. cbn [List.filter].
    destruct (contains "Title" line); simpl; lia.
Qed.

Lemma ss_entries_count dir entries w w' :
  ss_entries dir entries w = (Returned (), w') →
  ss_result_count (session (db_mgr w'))
  = (ss_result_count (session (db_mgr w))
     + sum_list_with (title_line_count dir) entries)%nat.
Proof.
  revert w; induction entries as [|entry entries IH]; intros w.
  - intros [= <-]. simpl. lia.
  - rewrite ss_entries_cons.
    destruct (ss_entry dir entry w) as [[[]|e] w1] eqn:Hstep; [|discriminate].
    intros Hrest. apply IH in Hrest. rewrite Hrest. cbn [sum_list_with].
    assert (ss_result_count (session (db_mgr w1))
            = (ss_result_count (session (db_mgr w)) + title_line_count dir entry)%nat)
      as ->; [|lia].
    unfold ss_entry, title_line_count in *. case_bool_decide as Hempty.
    + injection Hstep as <-. rewrite Hempty. simpl. lia.
    + now apply ss_lines_count in Hstep.
Qed.

Lemma ss_lines_no_title ipaddr lines w :
  Forall (λ l, contains "Title" l = false) lines →
  ss_lines ipaddr lines w = (Returned (), w).
Proof.
  induction 1 as [|line lines Hl _ IH]; [reflexivity|].
  rewrite ss_lines_cons, ss_line_skipped by exact Hl. exact IH.
Qed.

Lemma lstrip_append_stop (s t : string) (c : ascii) :
  is_space c = false → lstrip (s +:+ String c t) = lstrip s +:+ String c t.
Proof.
  intros Hc. induction s as [|x s IH].
  - cbn [append lstrip]. now rewrite Hc.
  - cbn [append lstrip]. destruct (is_space x); [exact IH | reflexivity].
Qed.

Lemma drop_last_snoc (s : string) (c : ascii) : drop_last (s +:+ String c "") = s.
Proof.
  induction s as [|x s IH]; [reflexivity|].
  cbn [append drop_last]. rewrite IH.
  destruct s; reflexivity.
Qed.

Lemma strip_comma (s : string) : strip (s +:+ ",") = lstrip s +:+ ",".
Proof.
  unfold strip. rewrite (lstrip_append_stop s "" ",") by reflexivity.
  rewrite (rev_append (lstrip s) ",").
  change (rev "," +:+ rev (lstrip s)) with (String "," (rev (lstrip s))).
  cbn [lstrip]. change (is_space ",") with false. cbv iota.
  change (String "," (rev (lstrip s))) with ("," +:+ rev (lstrip s)).
  now rewrite rev_append, rev_involutive.
Qed.

End SearchsploitMore.

(** X7: the exploit-lookup pass only appends exploit matches. Whether it
    returns or raises, the session afterwards holds the same targets in the
    same order, each with its addresses and its scan results unchanged and
    with its earlier exploit matches as a prefix of its exploit matches. *)
Theorem ss_pass_append_only `{Environment} (self : SearchsploitScan) (w : world) :
  Forall2 ss_extended (session (db_mgr w)) (session (db_mgr (ss_run self w).2)).
Proof.
  rewrite ss_run_unfold.
  match goal with |- context [ss_entries ?dir ?es w] =>
    pose proof (ss_entries_extends dir es w) as Hs;
    destruct (ss_entries dir es w) as [[s|e] w']
  end; exact Hs.
Qed.

(** X8: an exploit-lookup pass that returns has appended one exploit match
    for each line with a title that [searchsploit] printed for the
    artifacts its glob yielded; the other lines add nothing. *)
Theorem ss_pass_one_match_per_title_line `{Environment}
    (self : SearchsploitScan) (w w' : world) (entries : list (string * string)) :
  glob (nmap_output_path (ss_params self)) "nmap" ".xml" w = (Returned entries, w) →
  ss_run self w = (Returned (), w') →
  ss_result_count (session (db_mgr w'))
  = (ss_result_count (session (db_mgr w))
     + sum_list_with (title_line_count (nmap_output_path (ss_params self))) entries)%nat.
Proof.
  intros Hg. rewrite (ss_run_glob _ _ _ Hg).
  destruct (ss_entries _ entries w) as [[[]|e] w1] eqn:Hp; [|discriminate].
  intros [= <-]. simpl. now apply ss_entries_count.
Qed.

Lemma ss_pass_one_match_per_title_line_witness :
  let w := sample_world
             [known_xml;
              ("nmap.10.10.10.5-udp.xml",
               unlines ["[i] SearchSploit's XML mode"; "{'Title': 'Net-SNMP 5.7'}"])] in
  ss_result_count (session (db_mgr (ss_run sample_searchsploit w).2))
  = (ss_result_count (session (db_mgr w)) + 2)%nat.
Proof.
  intros w.
  apply (@ss_pass_one_match_per_title_line sample_environment sample_searchsploit w
           (ss_run sample_searchsploit w).2
           [known_xml;
            ("nmap.10.10.10.5-udp.xml",
             unlines ["[i] SearchSploit's XML mode"; "{'Title': 'Net-SNMP 5.7'}"])]);
    vm_compute; reflexivity.
Defined.

(** X9: a comma at the end of a line is removed before the line is
    evaluated, together with the white space in front of the line: the
    literal of [s] followed by a comma is the literal of [s] without its
    leading white space. *)
Theorem trailing_comma_removed `{Environment} (s : string) :
  ss_literal (s +:+ ",") = literal_eval (lstrip s).
Proof.
  unfold ss_literal. rewrite endswith_append, strip_comma.
  now rewrite (drop_last_snoc (lstrip s) ",").
Qed.

(** X10: a line with a title whose literal is a dict, for an address the
    store knows, appends one exploit match to the first target with that
    address, no target before it in the session having the address, and
    touches no other target. The match carries what the dict holds under
    [Type], [Title] and [Path], [None] for a key the dict does not have. *)
Theorem title_line_appends_match `{Environment}
    (ipaddr line : string) (w : world) (d : gmap string pyval) (i : nat) :
  contains "Title" line = true →
  ss_literal line = Returned (LitDict d) →
  query_first ipaddr (session (db_mgr w)) = Some i →
  let r := ss_line ipaddr line w in
  r.1 = Returned ()
  ∧ (∃ t, session (db_mgr w) !! i = Some t
          ∧ has_address ipaddr t = true
          ∧ session (db_mgr r.2) !! i
            = Some (add_searchsploit_result
                      {| ssr_type := default PyNone (d !! "Type");
                         ssr_title := default PyNone (d !! "Title");
                         ssr_path := default PyNone (d !! "Path") |} t))
  ∧ (∀ j t', (j < i)%nat → session (db_mgr w) !! j = Some t' →
             has_address ipaddr t' = false)
  ∧ (∀ j, j ≠ i → session (db_mgr r.2) !! j = session (db_mgr w) !! j).
Proof.
  intros Hc Hl Hq r. subst r. rewrite (ss_line_appends _ _ _ _ _ Hc Hl Hq).
  split; [reflexivity|]. split; [|split].
  - destruct (query_first_lookup _ _ _ Hq) as (t & Ht & Ha).
    exists t. repeat split; try assumption.
    simpl. now rewrite list_lookup_alter_eq, Ht.
  - intros j t' Hlt Hj. exact (query_first_before _ _ _ _ _ Hq Hlt Hj).
  - intros j Hj. simpl. now apply list_lookup_alter_ne.
Qed.

Lemma title_line_appends_match_witness :
  let other : Target :=
    {| ipv4_address := Some "10.10.10.4"; ipv6_address := None;
       nmap_results := []; searchsploit_results := [] |} in
  let w := set_db_mgr {| session := [other; sample_target; sample_target];
                         committed := []; closed := false |}
             (sample_world [known_xml]) in
  let line := "{'Title': 'Nginx 1.14 - Denial of Service'}" in
  let d : gmap string pyval := {[ "Title" := PyStr "Nginx 1.14 - Denial of Service" ]} in
  let r := ss_line "10.10.10.5" line w in
  r.1 = Returned ()
  ∧ (∃ t, session (db_mgr w) !! 1%nat = Some t
          ∧ has_address "10.10.10.5" t = true
          ∧ session (db_mgr r.2) !! 1%nat
            = Some (add_searchsploit_result
                      {| ssr_type := default PyNone (d !! "Type");
                         ssr_title := default PyNone (d !! "Title");
                         ssr_path := default PyNone (d !! "Path") |} t))
  ∧ (∀ j t', (j < 1)%nat → session (db_mgr w) !! j = Some t' →
             has_address "10.10.10.5" t' = false)
  ∧ (∀ j, j ≠ 1%nat → session (db_mgr r.2) !! j = session (db_mgr w) !! j).
Proof.
  intros other w line d.
  apply (@title_line_appends_match sample_environment "10.10.10.5" line w d 1);
    vm_compute; reflexivity.
Defined.

(** X11: a line with a title that is no dict literal ends the pass. If
    [literal_eval] raises, or gives something that has no [get], the lines
    of the output are processed up to that line and the exception leaves
    the loop there, whatever lines follow. *)
Theorem malformed_title_line_aborts `{Environment}
    (ipaddr line : string) (pre rest : list string) (w w1 : world) (e : exn) :
  ss_lines ipaddr pre w = (Returned (), w1) →
  contains "Title" line = true →
  ss_literal line = Raised e
  ∨ (ss_literal line = Returned LitOther
     ∧ e = AttributeError "object has no attribute 'get'") →
  ss_lines ipaddr (pre ++ line :: rest) w = (Raised e, w1).
Proof.
  intros Hpre Hc Hl. rewrite ss_lines_app, Hpre, ss_lines_cons.
  destruct Hl as [Hl | [Hl ->]].
  - now rewrite (ss_line_literal_raised _ _ _ _ Hc Hl).
  - unfold ss_line. rewrite Hc. unfold_M. now rewrite Hl.
Qed.

Lemma malformed_title_line_aborts_witness :
  let w := sample_world [known_xml] in
  ss_lines "10.10.10.5"
    (["[i] SearchSploit's XML mode"] ++ "Title: no dict here"
       :: ["{'Title': 'Nginx 1.14 - Denial of Service'}"]) w
  = (Raised (SyntaxError "invalid syntax"), w).
Proof.
  intros w.
  apply (@malformed_title_line_aborts sample_environment "10.10.10.5"
           "Title: no dict here" ["[i] SearchSploit's XML mode"]
           ["{'Title': 'Nginx 1.14 - Denial of Service'}"] w w
           (SyntaxError "invalid syntax"));
    [reflexivity | reflexivity | left; reflexivity].
Defined.

Lemma filter_length_zero {A} (p : A → bool) (l : list A) :
  length (List.filter p l) = 0%nat → Forall (λ x, p x = false) l.
Proof.
  induction l as [|x l IH]; [constructor|].
  cbn [List.filter]. destruct (p x) eqn:Hp; [discriminate|].
  intros Hl. constructor; auto.
Qed.

(** X12: when [searchsploit] prints no line with a title for any of the
    artifacts, be its output empty or not, the pass appends nothing: it
    returns with the session as it was, committed and closed. *)
Theorem ss_pass_without_titles `{Environment}
    (self : SearchsploitScan) (w : world) (entries : list (string * string)) :
  glob (nmap_output_path (ss_params self)) "nmap" ".xml" w = (Returned entries, w) →
  Forall (λ entry, title_line_count (nmap_output_path (ss_params self)) entry = 0%nat)
    entries →
  ss_run self w = (Returned (), set_db_mgr (db_close (db_mgr w)) w).
Proof.
  intros Hg Hall. rewrite (ss_run_glob _ _ _ Hg).
  assert (ss_entries (nmap_output_path (ss_params self)) entries w = (Returned (), w))
    as ->; [|reflexivity].
  clear Hg. induction Hall as [|entry entries Hentry _ IH]; [reflexivity|].
  rewrite ss_entries_cons.
  assert (ss_entry (nmap_output_path (ss_params self)) entry w = (Returned (), w)) as ->.
  { unfold ss_entry. case_bool_decide; [reflexivity|].
    apply ss_lines_no_title. now apply filter_length_zero. }
  exact IH.
Qed.

Lemma ss_pass_without_titles_witness :
  let w := sample_world [("nmap.10.10.10.5-tcp.xml", unlines ["[i] no results"]);
                         ("nmap.10.10.10.5-udp.xml", "")] in
  ss_run sample_searchsploit w = (Returned (), set_db_mgr (db_close (db_mgr w)) w).
Proof.
  intros w.
  apply (@ss_pass_without_titles sample_environment sample_searchsploit w
           [("nmap.10.10.10.5-tcp.xml", unlines ["[i] no results"]);
            ("nmap.10.10.10.5-udp.xml", "")]);
    [vm_compute; reflexivity | repeat constructor].
Defined.

Lemma filter_none {A} (p : A → bool) (l : list A) :
  Forall (λ x, p x = false) l → List.filter p l = [].
Proof.
  induction 1 as [|x l Hx _ IH]; [reflexivity|]. cbn [List.filter]. now rewrite Hx.
Qed.

(** X13: with no output folder, or with a folder that holds no file named
    [nmap*.nmap] (no file named [nmap*.xml]), a pass has nothing to read:
    it returns, appends nothing, and commits and closes the store. *)
Theorem passes_without_artifacts `{Environment} (p : params) (h h' : Z) (w : world) :
  (∀ es, fs w !! nmap_output_path p = Some (Dir es) →
         Forall (λ e, glob_match "nmap" ".nmap" e.1 = false
                      ∧ glob_match "nmap" ".xml" e.1 = false) es) →
  parse_nmap_output {| nmap_params := p; nmap_highest_id := h |} w
  = (Returned (), set_db_mgr (db_close (db_mgr w)) w)
  ∧ ss_run {| ss_params := p; ss_highest_id := h' |} w
    = (Returned (), set_db_mgr (db_close (db_mgr w)) w).
Proof.
  intros Hno. rewrite parse_nmap_output_unfold, ss_run_unfold. cbn [nmap_params ss_params].
  destruct (fs w !! nmap_output_path p) as [[c|es]|] eqn:Hfs; try (split; reflexivity).
  specialize (Hno es eq_refl).
  rewrite !filter_none; [split; reflexivity | |].
  - eapply Forall_impl; [exact Hno|]. now intros e [_ Hx].
  - eapply Forall_impl; [exact Hno|]. now intros e [Hn _].
Qed.

Lemma passes_without_artifacts_witness :
  let w := sample_world [("notes.txt", "x"); ("nmap.10.10.10.5-tcp.gnmap", "y")] in
  parse_nmap_output {| nmap_params := sample_params (PyStr "2"); nmap_highest_id := 0 |} w
  = (Returned (), set_db_mgr (db_close (db_mgr w)) w)
  ∧ ss_run {| ss_params := sample_params (PyStr "2"); ss_highest_id := 0 |} w
    = (Returned (), set_db_mgr (db_close (db_mgr w)) w).
Proof.
  intros w.
  apply (@passes_without_artifacts sample_environment (sample_params (PyStr "2")) 0 0 w).
  intros es Hes. vm_compute in Hes. injection Hes as <-.
  repeat constructor.
Defined.

(** ** More on [run] *)

(** X14: the thread count [run] goes on with is the absolute value of what
    [int] makes of the parameter: it is never negative, a negative value is
    not refused, and the coercion itself leaves the world alone. *)
Theorem thread_count_is_absolute_value `{Environment}
    (self : ThreadedNmapScan) (w w' : world) (n : Z) :
  coerce_threads self w = (Returned (Some n), w') →
  w' = w ∧ (0 ≤ n)%Z
  ∧ ∃ z, py_int (threads (nmap_params self)) = Returned z ∧ n = Z.abs z.
Proof.
  unfold coerce_threads, try_except_TypeError. unfold_M.
  destruct (py_int (threads (nmap_params self))) as [z|e] eqn:Hz.
  - intros [= <- <-]. split; [reflexivity|]. split; [apply Z.abs_nonneg | eauto].
  - destruct e; discriminate.
Qed.

Lemma thread_count_is_absolute_value_witness :
  let w := sample_world [] in
  w = w ∧ (0 ≤ 4)%Z
  ∧ ∃ z, py_int (threads (nmap_params (sample_scan (PyStr " -4 ")))) = Returned z
         ∧ 4%Z = Z.abs z.
Proof.
  intros w.
  apply (@thread_count_is_absolute_value sample_environment
           (sample_scan (PyStr " -4 ")) w w 4).
  reflexivity.
Defined.

(** X15: with [None] for [threads] the handler of [run] is taken: the
    message that names [--threads] is logged and [run] returns at once. The
    input is not loaded, no folder is made, no command is dispatched, and
    the store is not touched, so it is not closed either. *)
Theorem none_threads_returns_early `{Environment} (self : ThreadedNmapScan) (w : world) :
  threads (nmap_params self) = PyNone →
  let r := nmap_run self w in
  r.1 = Returned ()
  ∧ log r.2 = log w ++ ["The value supplied to --threads must be a non-negative integer."]
  ∧ fs r.2 = fs w
  ∧ dispatched r.2 = dispatched w
  ∧ db_mgr r.2 = db_mgr w.
Proof.
  intros Ht r. subst r. rewrite (nmap_run_threads_none _ _ Ht). now repeat split.
Qed.

Lemma none_threads_returns_early_witness :
  let w := sample_world [known_artifact] in
  let r := nmap_run (sample_scan PyNone) w in
  r.1 = Returned ()
  ∧ log r.2 = log w ++ ["The value supplied to --threads must be a non-negative integer."]
  ∧ fs r.2 = fs w
  ∧ dispatched r.2 = dispatched w
  ∧ db_mgr r.2 = db_mgr w.
Proof.
  intros w.
  apply (@none_threads_returns_early sample_environment (sample_scan PyNone) w).
  reflexivity.
Defined.

(** X16: [run] dispatches all or nothing. After a run the commands handed
    to the pool are those handed before, or those followed by every command
    generated from the input mapping, once each and in the order of the
    mapping; the second happens only for a thread count above zero. *)
Theorem run_dispatches_all_or_nothing `{Environment} (self : ThreadedNmapScan) (w : world) :
  dispatched (nmap_run self w).2 = dispatched w
  ∨ ∃ n d, py_int (threads (nmap_params self)) = Returned n
           ∧ Z.abs n ≠ 0%Z
           ∧ upstream w = Some d
           ∧ dispatched (nmap_run self w).2
             = dispatched w ++ make_commands (nmap_output_path (nmap_params self)) d.
Proof.
  destruct (py_int (threads (nmap_params self))) as [n|e] eqn:Hn.
  - destruct (upstream w) as [d|] eqn:Hu.
    + destruct (mkdir_p (nmap_output_path (nmap_params self)) w) as [[[]|e] w1] eqn:Hm.
      * destruct (Z.eq_dec (Z.abs n) 0%Z) as [Hz|Hz].
        -- left. unfold nmap_run. unfold mbind, M_bind, bind.
           rewrite (coerce_threads_int _ _ _ Hn), Hz.
           unfold load_input, get_world, raise, ret. unfold mbind, M_bind, bind.
           rewrite Hu, Hm. unfold mkdir_p in Hm.
           destruct (fs w !! nmap_output_path (nmap_params self)) as [[c|es]|];
             inversion Hm; subst; reflexivity.
        -- right. exists n, d. repeat split; try assumption.
           now apply (nmap_run_dispatches self w n d w1).
      * left. unfold nmap_run. unfold mbind, M_bind, bind.
        rewrite (coerce_threads_int _ _ _ Hn).
        unfold load_input, get_world, raise, ret. unfold mbind, M_bind, bind.
        rewrite Hu, Hm. unfold mkdir_p in Hm.
        destruct (fs w !! nmap_output_path (nmap_params self)) as [[c|es]|];
          inversion Hm; subst; reflexivity.
    + left. unfold nmap_run. unfold mbind, M_bind, bind.
      rewrite (coerce_threads_int _ _ _ Hn).
      unfold load_input, get_world, raise, ret. unfold mbind, M_bind, bind.
      now rewrite Hu.
  - left. unfold nmap_run. unfold mbind, M_bind, bind.
    unfold coerce_threads, try_except_TypeError. unfold_M. rewrite Hn.
    destruct e; reflexivity.
Qed.

(** X17: when the path of the output folder is taken by a regular file,
    [mkdir] with [exist_ok] still fails: for a thread count [int] accepts
    and a loadable input, [run] raises [FileExistsError] on that path with
    the world unchanged, before the pool is made and any command
    dispatched. *)
Theorem output_path_is_file `{Environment}
    (self : ThreadedNmapScan) (w : world) (n : Z) (d : ip_dict) (content : string) :
  py_int (threads (nmap_params self)) = Returned n →
  upstream w = Some d →
  fs w !! nmap_output_path (nmap_params self) = Some (File content) →
  nmap_run self w = (Raised (FileExistsError (nmap_output_path (nmap_params self))), w).
Proof.
  intros Hn Hu Hf. unfold nmap_run. unfold mbind, M_bind, bind.
  rewrite (coerce_threads_int _ _ _ Hn).
  unfold load_input, get_world, raise, ret. unfold mbind, M_bind, bind.
  rewrite Hu. unfold mkdir_p. now rewrite Hf.
Qed.

Lemma output_path_is_file_witness :
  let w := set_fs {[ "/tmp/recon/nmap-results" := File "not a folder" ]} (sample_world []) in
  nmap_run (sample_scan (PyStr "2")) w
  = (Raised (FileExistsError (nmap_output_path (nmap_params (sample_scan (PyStr "2"))))), w).
Proof.
  intros w.
  apply (@output_path_is_file sample_environment (sample_scan (PyStr "2")) w 2
           [("10.10.10.5", [("tcp", {[ "22"; "80" ]})])] "not a folder");
    reflexivity.
Defined.

(** ** More on the commands *)

Section CommandsMore.

Context `{Environment}.

Lemma contains_char_cons (c x : ascii) (s : string) :
  contains (String c "") (String x s) = Ascii.eqb c x || contains (String c "") s.
Proof. cbn [contains startswith]. destruct (Ascii.eqb c x); reflexivity. Qed.

(** Without separator there is one field. *)
Lemma split_go_whole (c : ascii) (a : string) :
  contains (String c "") a = false → split_go (String c "") 0 a = (a, []).
Proof.
  induction a as [|x a IH]; intros Ha; [reflexivity|].
  rewrite contains_char_cons in Ha. apply orb_false_iff in Ha as [Hx Ha].
  cbn [split_go startswith]. rewrite Hx, (IH Ha). reflexivity.
Qed.

(** The first separator ends the first field. *)
Lemma split_first_field (c : ascii) (a t : string) :
  contains (String c "") a = false →
  split (String c "") (a +:+ String c t) = a :: split (String c "") t.
Proof.
  unfold split. induction a as [|x a IH]; intros Ha.
  - cbn [append split_go startswith]. rewrite Ascii.eqb_refl. cbn [String.length Nat.sub].
    now destruct (split_go (String c "") 0 t).
  - rewrite contains_char_cons in Ha. apply orb_false_iff in Ha as [Hx Ha].
    cbn [append split_go startswith]. rewrite Hx. specialize (IH Ha).
    destruct (split_go (String c "") 0 (a +:+ String c t)) as [f r].
    destruct (split_go (String c "") 0 t) as [f' r'].
    now injection IH as -> ->.
Qed.

(** Joining fields without comma and splitting on commas gives the fields
    back, unless there is no field at all. *)
Lemma split_join_comma (x : string) (l : list string) :
  Forall (λ p, contains "," p = false) (x :: l) →
  split "," (join "," (x :: l)) = x :: l.
Proof.
  revert x; induction l as [|y l IH]; intros x Hall.
  - apply Forall_cons in Hall as [Hx _]. cbn [join]. unfold split.
    now rewrite (split_go_whole "," x Hx).
  - apply Forall_cons in Hall as [Hx Hall].
    change (join "," (x :: y :: l)) with (x +:+ "," +:+ join "," (y :: l)).
    change (x +:+ "," +:+ join "," (y :: l)) with (x +:+ String "," (join "," (y :: l))).
    rewrite (split_first_field "," x _ Hx). now rewrite (IH y Hall).
Qed.

Lemma length_pair_commands out target (pd : list (string * gset string)) :
  length (pd ≫= λ '(protocol, ports), [make_command out target protocol ports])
  = length pd.
Proof.
  induction pd as [|[protocol ports] pd IH]; [reflexivity|].
  rewrite bind_cons, length_app, IH. reflexivity.
Qed.

Lemma make_commands_cons out target pd (d : ip_dict) :
  make_commands out ((target, pd) :: d)
  = (pd ≫= λ '(protocol, ports), [make_command out target protocol ports])
    ++ make_commands out d.
Proof. reflexivity. Qed.

Lemma make_commands_inv out (d : ip_dict) cmd :
  cmd ∈ make_commands out d →
  ∃ target protocol_dict protocol ports,
    (target, protocol_dict) ∈ d ∧ (protocol, ports) ∈ protocol_dict
    ∧ cmd = make_command out target protocol ports.
Proof.
  unfold make_commands. intros Hc.
  apply list_elem_of_bind in Hc as ([target pd] & Hc & Ht).
  apply list_elem_of_bind in Hc as ([protocol ports] & Hc & Hp).
  apply list_elem_of_singleton in Hc. eauto 10.
Qed.

End CommandsMore.

(** X18: [run] generates one command for each pair of a target and a
    protocol of the input mapping; an empty mapping, or targets without
    protocols, give no command. *)
Theorem one_command_per_pair `{Environment} (out : string) (d : ip_dict) :
  length (make_commands out d) = pair_count d.
Proof.
  induction d as [|[target pd] d IH]; [reflexivity|].
  rewrite make_commands_cons, length_app, length_pair_commands, IH. reflexivity.
Qed.

(** X19: every command of a run comes from a target, a protocol and a set
    of ports of the input mapping. It has fourteen arguments: the twelve of
    the template, of which only the scan type at 2 and the ports at 10 are
    overwritten, then the base for [-oA], which is the artifact stem of the
    target and the protocol inside the output folder, then the target. *)
Theorem commands_follow_template `{Environment}
    (out : string) (d : ip_dict) (cmd : list string) :
  cmd ∈ make_commands out d →
  ∃ target protocol_dict protocol ports,
    (target, protocol_dict) ∈ d ∧ (protocol, ports) ∈ protocol_dict
    ∧ length cmd = 14%nat
    ∧ (∀ k, k ≠ 2%nat → k ≠ 10%nat → (k < 12)%nat → cmd !! k = nmap_command !! k)
    ∧ cmd !! 12%nat = Some (path_join out (artifact_stem target protocol))
    ∧ cmd !! 13%nat = Some target.
Proof.
  intros Hc. apply make_commands_inv in Hc
    as (target & pd & protocol & ports & Ht & Hp & ->).
  exists target, pd, protocol, ports. rewrite make_command_eq.
  repeat split; try assumption.
  intros k H2 H10 Hk.
  do 12 (destruct k as [|k]; [try reflexivity; congruence|]). lia.
Qed.

Lemma commands_follow_template_witness :
  let out := "/tmp/recon/nmap-results" in
  let d : ip_dict := [("10.10.10.5", [("tcp", {[ "22"; "80" ]}); ("udp", {[ "161" ]})])] in
  let cmd := make_command out "10.10.10.5" "udp" {[ "161" ]} in
  ∃ target protocol_dict protocol ports,
    (target, protocol_dict) ∈ d ∧ (protocol, ports) ∈ protocol_dict
    ∧ length cmd = 14%nat
    ∧ (∀ k, k ≠ 2%nat → k ≠ 10%nat → (k < 12)%nat → cmd !! k = nmap_command !! k)
    ∧ cmd !! 12%nat = Some (path_join out (artifact_stem target protocol))
    ∧ cmd !! 13%nat = Some target.
Proof.
  intros out d cmd.
  apply (@commands_follow_template sample_environment out d cmd).
  apply (make_commands_elem out d "10.10.10.5"
           [("tcp", {[ "22"; "80" ]}); ("udp", {[ "161" ]})] "udp" {[ "161" ]}).
  - apply list_elem_of_singleton. reflexivity.
  - apply elem_of_cons. right. apply list_elem_of_singleton. reflexivity.
Defined.

(** X20: the port argument can be read back. When no port holds a comma,
    splitting the argument at 10 on commas gives the ports of the set, each
    once, in the order the set was iterated; for the empty set the argument
    is the empty string, which splits into one empty field. *)
Theorem port_argument_splits_back `{Environment}
    (out target protocol : string) (ports : gset string) :
  (∀ p, p ∈ ports → contains "," p = false) →
  ∃ arg, make_command out target protocol ports !! 10%nat = Some arg
         ∧ (ports = ∅ → arg = "" ∧ split "," arg = [""])
         ∧ (ports ≠ ∅ →
            split "," arg = set_iter ports
            ∧ NoDup (split "," arg)
            ∧ list_to_set (split "," arg) = ports).
Proof.
  intros Hcomma. exists (join "," (set_iter ports)). split; [reflexivity|].
  pose proof (set_iter_perm ports) as Hperm.
  split.
  - intros ->. rewrite elements_empty in Hperm. apply Permutation_nil_r in Hperm.
    rewrite Hperm. split; reflexivity.
  - intros Hne.
    assert (Forall (λ p, contains "," p = false) (set_iter ports)) as Hall.
    { apply Forall_forall. intros p Hp. apply Hcomma.
      rewrite Hperm in Hp. now apply elem_of_elements in Hp. }
    destruct (set_iter ports) as [|x l] eqn:Hl.
    { exfalso. apply Hne. apply leibniz_equiv, elements_empty_inv.
      symmetry in Hperm. now apply Permutation_nil_r in Hperm. }
    rewrite (split_join_comma x l Hall). split; [reflexivity|]. split.
    + rewrite Hperm. apply NoDup_elements.
    + apply set_eq. intros p. rewrite elem_of_list_to_set, Hperm.
      apply elem_of_elements.
Qed.

Lemma port_argument_splits_back_witness :
  ∃ arg, make_command "/tmp/recon/nmap-results" "10.10.10.5" "tcp" {[ "22"; "80" ]} !! 10%nat
         = Some arg
         ∧ (({[ "22"; "80" ]} : gset string) = ∅ → arg = "" ∧ split "," arg = [""])
         ∧ (({[ "22"; "80" ]} : gset string) ≠ ∅ →
            split "," arg = set_iter {[ "22"; "80" ]}
            ∧ NoDup (split "," arg)
            ∧ list_to_set (split "," arg) = ({[ "22"; "80" ]} : gset string)).
Proof.
  apply (@port_argument_splits_back sample_environment "/tmp/recon/nmap-results"
           "10.10.10.5" "tcp" {[ "22"; "80" ]}).
  intros p Hp. apply elem_of_union in Hp as [Hp|Hp];
    apply elem_of_singleton in Hp; subst; reflexivity.
Defined.

(** ** Where the result of an artifact goes *)

(** X21: a round of the service-scan pass that returns has appended one
    result, whose text is the captured lines joined by line feeds, to the
    first target of the session that has the address read from the name of
    the artifact, as its IPv4 or as its IPv6 address; every other target is
    as before. *)
Theorem artifact_result_goes_to_its_target
    (sentry sentry' : bool) (entry : string * string) (w w' : world) :
  parse_entry sentry entry w = (Returned sentry', w') →
  ∃ i t text,
    scan_lines (sentry, []) (splitlines entry.2) = Returned (sentry', text)
    ∧ session (db_mgr w) !! i = Some t
    ∧ has_address (nmap_ipaddr (stem entry.1)) t = true
    ∧ (∀ j t', (j < i)%nat → session (db_mgr w) !! j = Some t' →
               has_address (nmap_ipaddr (stem entry.1)) t' = false)
    ∧ session (db_mgr w') !! i
      = Some (add_nmap_result {| nr_text := join newline text |} t)
    ∧ (∀ j, j ≠ i → session (db_mgr w') !! j = session (db_mgr w) !! j).
Proof.
  unfold parse_entry. unfold_M.
  destruct (scan_lines _ _) as [[s text]|e]; [|discriminate].
  destruct (query_first _ _) as [i|] eqn:Hq; [|discriminate].
  intros [= <- <-].
  destruct (query_first_lookup _ _ _ Hq) as (t & Ht & Ha).
  exists i, t, text. split; [reflexivity|]. split; [exact Ht|]. split; [exact Ha|].
  split; [|split].
  - intros j t' Hlt Hl. exact (query_first_before _ _ _ _ _ Hq Hlt Hl).
  - simpl. now rewrite list_lookup_alter_eq, Ht.
  - intros j Hj. simpl. now apply list_lookup_alter_ne.
Qed.

Lemma artifact_result_goes_to_its_target_witness :
  let w := sample_world [known_artifact] in
  let w' := (parse_entry false known_artifact w).2 in
  ∃ i t text,
    scan_lines (false, []) (splitlines known_artifact.2) = Returned (false, text)
    ∧ session (db_mgr w) !! i = Some t
    ∧ has_address (nmap_ipaddr (stem known_artifact.1)) t = true
    ∧ (∀ j t', (j < i)%nat → session (db_mgr w) !! j = Some t' →
               has_address (nmap_ipaddr (stem known_artifact.1)) t' = false)
    ∧ session (db_mgr w') !! i
      = Some (add_nmap_result {| nr_text := join newline text |} t)
    ∧ (∀ j, j ≠ i → session (db_mgr w') !! j = session (db_mgr w) !! j).
Proof.
  intros w w'.
  apply (artifact_result_goes_to_its_target false false known_artifact w w').
  vm_compute. reflexivity.
Defined.
